(** * combine_pdfs.py: a shallow embedding and its properties

    The script lists the [*.pdf] entries of a directory, orders them by
    name, by a "numeric" key or by modification time, appends each of
    them to a [PdfMerger] and writes the result.  Python built-ins
    ([sorted], [str] methods, list comparison), [pathlib] and [PyPDF2]
    are modelled by the definitions of the modules [Py], [PathLib] and
    [Os]; the functions of the script itself are in [CombinePdfs]. *)

From Stdlib Require Import List String Ascii ZArith NArith Bool Lia.
From Stdlib Require Import Permutation Sorted.

Import ListNotations.

Set Warnings "-register-all".

Local Open Scope string_scope.
Local Open Scope list_scope.

(* ================================================================= *)
(** ** Python values, exceptions and built-ins                        *)
(* ================================================================= *)

Module Py.

(** The exception classes the script can meet.  All of them derive from
    [Exception]; [str(e)] is the carried text. *)
Inductive exn : Type :=
| FileNotFoundError (msg : string)
| NotADirectoryError (msg : string)
| IsADirectoryError (msg : string)
| ValueError (msg : string)
| TypeError (msg : string)
| OSError (msg : string)
| PdfReadError (msg : string)
| UnicodeEncodeError (msg : string).

Definition str_of_exn (e : exn) : string :=
  match e with
  | FileNotFoundError m | NotADirectoryError m | IsADirectoryError m
  | ValueError m | TypeError m | OSError m | PdfReadError m
  | UnicodeEncodeError m => m
  end.

(** A computation either returns or raises. *)
Inductive result (A : Type) : Type :=
| Ok (a : A)
| Raise (e : exn).
Arguments Ok {A} a.
Arguments Raise {A} e.

Definition bind {A B : Type} (m : result A) (k : A -> result B) : result B :=
  match m with
  | Ok a => k a
  | Raise e => Raise e
  end.

Notation "x <- m ;; k" := (bind m (fun x => k))
  (at level 61, m at next level, right associativity).

(** A comprehension [[f(x) for x in l]]: left to right, the first
    exception ends it. *)
Fixpoint comprehension {A B : Type} (f : A -> result B) (l : list A)
  : result (list B) :=
  match l with
  | [] => Ok []
  | x :: l' => y <- f x ;; ys <- comprehension f l' ;; Ok (y :: ys)
  end.

(** *** Characters

    A [str] is a sequence of code points; the model covers the code
    points below 256 (CPython's one-byte string kind), an [ascii] being
    the code point of that number.  The classification follows the
    Unicode character database for that range. *)

Definition ord (c : ascii) : N := N_of_ascii c.

Definition between (lo hi : N) (c : ascii) : bool :=
  ((lo <=? ord c) && (ord c <=? hi))%N.

(** [str.isdecimal]: category Nd, here only 0-9. *)
Definition isdecimal (c : ascii) : bool := between 48 57 c.

(** [str.isdigit]: the decimals and the superscripts 2, 3 and 1
    (U+00B2, U+00B3, U+00B9). *)
Definition isdigit (c : ascii) : bool :=
  isdecimal c || (ord c =? 178)%N || (ord c =? 179)%N || (ord c =? 185)%N.

(** [str.isnumeric]: the digits and the fractions U+00BC..U+00BE. *)
Definition isnumeric (c : ascii) : bool :=
  isdigit c || between 188 190 c.

(** [str.isalpha]: the letters of Latin-1 (categories Lu, Ll, Lo). *)
Definition isalpha (c : ascii) : bool :=
  between 65 90 c || between 97 122 c
  || (ord c =? 170)%N || (ord c =? 181)%N || (ord c =? 186)%N
  || between 192 214 c || between 216 246 c || between 248 255 c.

(** [str.isalnum] is true when one of [isalpha], [isdecimal], [isdigit]
    or [isnumeric] is. *)
Definition isalnum (c : ascii) : bool :=
  isalpha c || isdecimal c || isdigit c || isnumeric c.

(** [str.lower] on one character: the upper-case letters A-Z and
    U+00C0..U+00DE (without the multiplication sign U+00D7) move up by
    32, every other code point below 256 is its own lower case. *)
Definition lower_char (c : ascii) : ascii :=
  if between 65 90 c || between 192 214 c || between 216 222 c
  then ascii_of_N (ord c + 32)
  else c.

Definition lower (c : ascii) : string := String (lower_char c) EmptyString.

(** [int(c)] on a one-character string: only a decimal digit is a
    literal; [int] raises [ValueError] on anything else, the superscript
    digits included. *)
Definition int (c : ascii) : result Z :=
  if isdecimal c then Ok (Z.of_N (ord c) - 48)%Z
  else Raise (ValueError ("invalid literal for int() with base 10: '"
                            ++ String c "'")).

(** [repr(s)], which the text of an [OSError] uses for the file name:
    the string between single quotes (between double quotes when it
    has a single quote and no double one), a backslash before the quote
    character and before a backslash, the escapes for tab, line feed
    and carriage return, and two hexadecimal digits for every other
    character that is not printable (the control characters, U+007F to
    U+00A0 and the soft hyphen U+00AD). *)
Definition backslash : ascii := ascii_of_nat 92.
Definition single_quote : ascii := ascii_of_nat 39.
Definition double_quote : ascii := ascii_of_nat 34.
Definition line_feed : ascii := ascii_of_nat 10.

Definition isprintable (c : ascii) : bool :=
  between 32 126 c || (between 161 255 c && negb (ord c =? 173)%N).

Definition hex_digit (n : N) : ascii :=
  if (n <? 10)%N then ascii_of_N (48 + n) else ascii_of_N (87 + n).

Definition hex2 (c : ascii) : string :=
  String (hex_digit (ord c / 16)) (String (hex_digit (ord c mod 16)) "").

Definition repr_char (quote c : ascii) : string :=
  if Ascii.eqb c quote || Ascii.eqb c backslash
  then String backslash (String c "")
  else if (ord c =? 9)%N then String backslash "t"
  else if (ord c =? 10)%N then String backslash "n"
  else if (ord c =? 13)%N then String backslash "r"
  else if isprintable c then String c ""
  else String backslash (String "x" (hex2 c)).

Definition contains (c : ascii) (s : string) : bool :=
  existsb (Ascii.eqb c) (list_ascii_of_string s).

Definition repr (s : string) : string :=
  let quote := if contains single_quote s && negb (contains double_quote s)
               then double_quote else single_quote in
  String quote
    (String.concat "" (map (repr_char quote) (list_ascii_of_string s))
     ++ String quote "").

(** The number of lines [print(s)] puts on a stream: one, and one more
    for every line feed in [s]. *)
Definition lines_of_print (s : string) : nat :=
  S (List.length (filter (Ascii.eqb line_feed) (list_ascii_of_string s))).

(** *** Comparison of sequences

    [v < w] on two sequences whose items are always comparable: the
    first index at which the items differ decides; when there is none
    the shorter sequence is the smaller. *)
Fixpoint lex_ltb {T : Type} (eqb ltb : T -> T -> bool) (v w : list T) : bool :=
  match v, w with
  | [], [] => false
  | [], _ :: _ => true
  | _ :: _, [] => false
  | a :: v', b :: w' => if eqb a b then lex_ltb eqb ltb v' w' else ltb a b
  end.

Definition char_eqb (a b : ascii) : bool := (ord a =? ord b)%N.
Definition char_ltb (a b : ascii) : bool := (ord a <? ord b)%N.

(** [s < t] on strings: code point by code point. *)
Definition str_ltb (s t : string) : bool :=
  lex_ltb char_eqb char_ltb (list_ascii_of_string s) (list_ascii_of_string t).

(** *** The elements of a numeric sort key: an [int] or a [str]. *)
Inductive token : Type :=
| TInt (n : Z)
| TStr (s : string).

(** [a == b]: an [int] never equals a [str]. *)
Definition token_eqb (a b : token) : bool :=
  match a, b with
  | TInt m, TInt n => (m =? n)%Z
  | TStr s, TStr t => String.eqb s t
  | _, _ => false
  end.

(** [a < b]: Python 3 refuses to order an [int] and a [str]. *)
Definition token_lt (a b : token) : result bool :=
  match a, b with
  | TInt m, TInt n => Ok (m <? n)%Z
  | TStr s, TStr t => Ok (str_ltb s t)
  | TInt _, TStr _ =>
      Raise (TypeError "'<' not supported between instances of 'int' and 'str'")
  | TStr _, TInt _ =>
      Raise (TypeError "'<' not supported between instances of 'str' and 'int'")
  end.

(** [v < w] on two keys: the first index at which the items are not
    [==] decides with [<] on those two items, which raises when one is
    an [int] and the other a [str]; when there is none the shorter list
    is the smaller. *)
Fixpoint list_lt (v w : list token) : result bool :=
  match v, w with
  | [], [] => Ok false
  | [], _ :: _ => Ok true
  | _ :: _, [] => Ok false
  | a :: v', b :: w' => if token_eqb a b then list_lt v' w' else token_lt a b
  end.

(** *** [sorted(l, key=key)]

    The keys are computed first, one call per element and in order.
    The sort is stable and, like [list.sort], it only ever asks whether
    the key of a later element is less than the key of an earlier one;
    an exception raised by a key or by a comparison ends the sort.
    The model is a stable insertion sort: on two elements it makes the
    one comparison CPython makes, and whenever no comparison raises and
    [<] is a strict weak order it returns the list CPython returns
    (there is only one stable sorted arrangement). *)
Section Sorted.
Context {A K : Type}.
Variable key : A -> result K.
Variable lt : K -> K -> result bool.

Definition decorate (x : A) : result (K * A) :=
  k <- key x ;; Ok (k, x).

(** [insert x l]: [x] came before every element of [l] in the input;
    it goes behind exactly those leading elements that are less. *)
Fixpoint insert (x : K * A) (l : list (K * A)) : result (list (K * A)) :=
  match l with
  | [] => Ok [x]
  | y :: l' =>
      b <- lt (fst y) (fst x) ;;
      if b then r <- insert x l' ;; Ok (y :: r) else Ok (x :: y :: l')
  end.

Fixpoint isort (l : list (K * A)) : result (list (K * A)) :=
  match l with
  | [] => Ok []
  | x :: l' => s <- isort l' ;; insert x s
  end.

Definition sorted (l : list A) : result (list A) :=
  keyed <- comprehension decorate l ;;
  s <- isort keyed ;;
  Ok (map snd s).
End Sorted.

(** [sorted] when the comparison is a function into [bool] that cannot
    raise: the same insertion, without the exception plumbing. *)
Section SortedBool.
Context {A K : Type}.
Variable ltb : K -> K -> bool.

Fixpoint insert_b (x : K * A) (l : list (K * A)) : list (K * A) :=
  match l with
  | [] => [x]
  | y :: l' =>
      if ltb (fst y) (fst x) then y :: insert_b x l' else x :: y :: l'
  end.

Fixpoint isort_b (l : list (K * A)) : list (K * A) :=
  match l with
  | [] => []
  | x :: l' => insert_b x (isort_b l')
  end.
End SortedBool.

(** Notions in which the result of [sorted] is described: a decorated
    element carries its own key; an element does not come after another
    when the key of the other is not less than its own; an element has a
    given key. *)
Section SortedNotions.
Context {A K : Type}.
Variable key : A -> result K.
Variable ltb eqk : K -> K -> bool.

Definition keyed_by (kx : K * A) : Prop := key (snd kx) = Ok (fst kx).

Definition key_le (a b : K * A) : Prop := ltb (fst b) (fst a) = false.

Definition key_not_after (a b : A) : Prop :=
  exists ka kb, key a = Ok ka /\ key b = Ok kb /\ ltb kb ka = false.

Definition has_key (t : K) (x : A) : bool :=
  match key x with
  | Ok k => eqk k t
  | Raise _ => false
  end.
End SortedNotions.

End Py.

(* ================================================================= *)
(** ** [pathlib]: pure paths of the POSIX flavour                      *)
(* ================================================================= *)

Module PathLib.
Import Py.

(** A path is the list of its parts; an absolute path starts with the
    root part ["/"] (or ["//"]). *)
Definition Path : Type := list string.

Definition is_root (part : string) : bool :=
  String.eqb part "/" || String.eqb part "//".

(** [s.split("/")] *)
Fixpoint split_sep (cur : string) (s : string) : list string :=
  match s with
  | EmptyString => [cur]
  | String c s' =>
      if Ascii.eqb c "/" then cur :: split_sep "" s'
      else split_sep (cur ++ String c "") s'
  end.

Fixpoint lstrip_sep (s : string) : string :=
  match s with
  | String c s' => if Ascii.eqb c "/" then lstrip_sep s' else s
  | EmptyString => s
  end.

(** [Path(s)]: exactly two leading slashes are kept as the root ["//"],
    any other number of them is the root ["/"]; empty components and
    ["."] components are dropped. *)
Definition Path_of (s : string) : Path :=
  let rest := lstrip_sep s in
  let slashes := String.length s - String.length rest in
  let root := match slashes with
              | 0 => []
              | 2 => ["//"]
              | _ => ["/"]
              end in
  root ++ filter (fun x => negb (String.eqb x "") && negb (String.eqb x "."))
                 (split_sep "" rest).

(** [p / child] for a child that is a single component. *)
Definition joinpath (p : Path) (child : string) : Path := p ++ [child].

(** [p.name]: the last part, unless the path is empty or only a root. *)
Definition name (p : Path) : string :=
  match p with
  | [] => ""
  | r :: rest => if is_root r then last rest "" else last p ""
  end.

(** [s.rfind(".")] as an option. *)
Fixpoint rfind_dot (s : string) : option nat :=
  match s with
  | EmptyString => None
  | String c s' =>
      match rfind_dot s' with
      | Some i => Some (S i)
      | None => if Ascii.eqb c "." then Some 0 else None
      end
  end.

(** [p.stem]: the name without its last suffix; a dot in first or in
    last position does not start a suffix. *)
Definition stem (p : Path) : string :=
  let n := name p in
  match rfind_dot n with
  | Some i =>
      if Nat.ltb 0 i && Nat.ltb i (String.length n - 1) then substring 0 i n
      else n
  | None => n
  end.

Fixpoint join_sep (l : list string) : string :=
  match l with
  | [] => ""
  | [x] => x
  | x :: l' => x ++ "/" ++ join_sep l'
  end.

(** [str(p)] *)
Definition str_of_path (p : Path) : string :=
  match p with
  | [] => "."
  | r :: rest => if is_root r then r ++ join_sep rest else join_sep p
  end.

(** [p < q]: the lists of parts are compared. *)
Definition path_ltb (p q : Path) : bool := lex_ltb String.eqb str_ltb p q.

(** [s.endswith(suffix)] *)
Definition endswith (s suffix : string) : bool :=
  Nat.leb (String.length suffix) (String.length s)
  && String.eqb (substring (String.length s - String.length suffix)
                           (String.length suffix) s) suffix.

(** A name matches the pattern ["*.pdf"] when it ends in [.pdf]: the
    star stands for any characters, none and a leading dot included, and
    the POSIX flavour compares the case as given. *)
Definition fnmatch_pdf (entry_name : string) : bool := endswith entry_name ".pdf".

End PathLib.

(* ================================================================= *)
(** ** The file system, [PyPDF2] and the streams of the process        *)
(* ================================================================= *)

Module Os.
Import Py PathLib.

(** The pages of a document are opaque to the script. *)
Definition page : Type := nat.

(** What a regular file holds, as [PdfMerger.append] sees it. *)
Inductive body : Type :=
| Pdf (pages : list page)
| Damaged (why : string).

(** What a name of a directory denotes once symbolic links are followed;
    a link whose target is missing denotes nothing.  [mtime] is
    [st_mtime], a finite float of which only the order is used. *)
Inductive node : Type :=
| File (mtime : Z) (b : body)
| Dir (mtime : Z) (children : list (string * node))
| BrokenLink.

(** A listed file: its path, and what the file system holds there for
    the time of the run. *)
Record Entry : Type := { path : Path; target : node }.

(** [x.stat().st_mtime] *)
Definition st_mtime (x : Entry) : result Z :=
  match target x with
  | File m _ | Dir m _ => Ok m
  | BrokenLink =>
      Raise (FileNotFoundError ("[Errno 2] No such file or directory: "
                                  ++ repr (str_of_path (path x))))
  end.

(** [merger.append(str(x))]: the pages of a readable document; the
    accumulator is touched only once the whole source has been read. *)
Definition read_pdf (x : Entry) : result (list page) :=
  match target x with
  | File _ (Pdf ps) => Ok ps
  | File _ (Damaged why) => Raise (PdfReadError why)
  | Dir _ _ =>
      Raise (IsADirectoryError ("[Errno 21] Is a directory: "
                                  ++ repr (str_of_path (path x))))
  | BrokenLink =>
      Raise (FileNotFoundError ("[Errno 2] No such file or directory: "
                                  ++ repr (str_of_path (path x))))
  end.

(** What the output path holds: nothing, a whole document, or the
    first [written] bytes of the serialisation of a document. *)
Inductive file_state : Type :=
| Absent
| Whole (doc : list page)
| Truncated (doc : list page) (written : nat).

(** How [merger.write(path)] goes.  It opens the path for binary
    writing, which creates or empties the file, and then streams the
    document into it; either step can fail. *)
Inductive write_behaviour : Type :=
| Completes
| OpenFails (e : exn)
| FailsAfter (written : nat) (e : exn).

Definition PdfMerger_write (how : write_behaviour) (doc : list page)
    (before : file_state) : file_state * result unit :=
  match how with
  | Completes => (Whole doc, Ok tt)
  | OpenFails e => (before, Raise e)
  | FailsAfter k e => (Truncated doc k, Raise e)
  end.

(** One call of [print]: the line, with what the f-string inserts. *)
Inductive message : Type :=
| MsgNotInstalled                    (* "Error: PyPDF2 is not installed." *)
| MsgInstallHint                     (* "Please install it using: pip install PyPDF2" *)
| MsgCombining (n : nat)             (* "Combining {n} PDF files..." *)
| MsgAdding (file_name : string)     (* "  Adding: {name}" *)
| MsgWarning (file_name : string) (e : exn)
                                     (* "  Warning: Could not add {name}: {e}" *)
| MsgWriting (output_file : string)  (* "\nWriting combined PDF to: {output_file}" *)
| MsgSuccess (n : nat) (output_file : string)
     (* U+2713 CHECK MARK, then
        " Successfully combined {n} PDF files into {output_file}" *)
| MsgError (e : exn)                 (* "Error: {e}" *)
| MsgArgparse (text : string).       (* usage or help text of argparse *)

(** The text of the line [print(f"Error: {e}", file=sys.stderr)]. *)
Definition error_text (e : exn) : string := "Error: " ++ str_of_exn e.

(** The encoding of the standard output.  Every encoding used for a
    stream encodes the ASCII range; [encodes] tells which of the code
    points from 128 to 255 it encodes as well, [encodes_check_mark]
    whether it encodes U+2713, and [refusal] is the text of the
    [UnicodeEncodeError] the codec raises for a line it cannot encode
    (it names the codec, the character and its position). *)
Record encoding : Type := {
  encodes : ascii -> bool;
  encodes_check_mark : bool;
  refusal : message -> string
}.

Definition can_encode (enc : encoding) (c : ascii) : bool :=
  (ord c <? 128)%N || encodes enc c.

Definition can_encode_str (enc : encoding) (s : string) : bool :=
  forallb (can_encode enc) (list_ascii_of_string s).

(** Whether a line can be written to a stream of this encoding: the
    fixed parts and the numbers are ASCII, so what the f-string inserts
    decides, and for the success line its first character. *)
Definition can_print (enc : encoding) (m : message) : bool :=
  match m with
  | MsgNotInstalled | MsgInstallHint | MsgCombining _ => true
  | MsgAdding file_name => can_encode_str enc file_name
  | MsgWarning file_name e =>
      can_encode_str enc file_name && can_encode_str enc (str_of_exn e)
  | MsgWriting output_file => can_encode_str enc output_file
  | MsgSuccess _ output_file =>
      encodes_check_mark enc && can_encode_str enc output_file
  | MsgError e => can_encode_str enc (error_text e)
  | MsgArgparse text => can_encode_str enc text
  end.

(** The surroundings of one run. *)
Record World : Type := {
  pypdf2_importable : bool;
  resolve : string -> option node;     (* what a path string leads to *)
  output_before : file_state;          (* at the output path, before the run *)
  write_goes : write_behaviour;        (* what the disk does to the final write *)
  stdout_encoding : encoding           (* [sys.stdout.encoding] *)
}.

(** What a run leaves behind. *)
Record Outcome : Type := {
  stdout : list message;
  stderr : list message;
  exit_status : Z;
  output_after : file_state
}.

(** *** Statements

    What a function of the script has in hand while it runs: the
    pages gathered by the [PdfMerger], the lines on the standard output
    and the state of the output path.  A statement changes them and
    returns or raises; what was done before an exception stays done. *)
Record process : Type := {
  merged : list page;
  printed : list message;
  on_disk : file_state
}.

Definition action : Type := process -> process * result unit.

Definition skip : action := fun s => (s, Ok tt).

(** [a] then [b]; an exception in [a] leaves [b] out. *)
Definition seq (a b : action) : action :=
  fun s =>
    let '(s', r) := a s in
    match r with
    | Ok _ => b s'
    | Raise e => (s', Raise e)
    end.

Notation "a >> b" := (seq a b) (at level 62, right associativity).

(** [for x in l: body] *)
Fixpoint for_each {A : Type} (l : list A) (body : A -> action) : action :=
  match l with
  | [] => skip
  | x :: l' => body x >> for_each l' body
  end.

(** [try: a except Exception as e: handler] *)
Definition try_except (a : action) (handler : exn -> action) : action :=
  fun s =>
    let '(s', r) := a s in
    match r with
    | Ok _ => (s', Ok tt)
    | Raise e => handler e s'
    end.

(** [print(m)] on the standard output.  The text is encoded as a whole
    before any of it is written: a line that cannot be encoded raises
    [UnicodeEncodeError] and leaves the stream as it was.  (The error
    stream replaces what it cannot encode by an escape and does not
    raise.) *)
Definition print (enc : encoding) (m : message) : action :=
  fun s =>
    if can_print enc m
    then ({| merged := merged s; printed := printed s ++ [m];
             on_disk := on_disk s |}, Ok tt)
    else (s, Raise (UnicodeEncodeError (refusal enc m))).

(** [merger.append(str(x))] *)
Definition append (x : Entry) : action :=
  fun s =>
    match read_pdf x with
    | Ok ps => ({| merged := merged s ++ ps; printed := printed s;
                   on_disk := on_disk s |}, Ok tt)
    | Raise e => (s, Raise e)
    end.

(** [merger.write(output_file)] *)
Definition write (how : write_behaviour) : action :=
  fun s =>
    let '(disk, r) := PdfMerger_write how (merged s) (on_disk s) in
    ({| merged := merged s; printed := printed s; on_disk := disk |}, r).

End Os.

(* ================================================================= *)
(** ** The script                                                      *)
(* ================================================================= *)

Module CombinePdfs.
Import Py PathLib Os.

(** [directory_path.glob("*.pdf")]: the entries directly under the
    directory whose name matches, whatever they are, in the order in
    which the directory is read. *)
Definition glob_pdf (directory_path : Path) (children : list (string * node))
  : list Entry :=
  map (fun c => {| path := joinpath directory_path (fst c); target := snd c |})
      (filter (fun c => fnmatch_pdf (fst c)) children).

(** [sorted(paths)]: no key function, the paths themselves are compared. *)
Definition path_key (x : Entry) : result Path := Ok (path x).
Definition path_lt (p q : Path) : result bool := Ok (path_ltb p q).

Definition get_pdf_files (w : World) (directory : string) : result (list Entry) :=
  let directory_path := Path_of directory in
  match resolve w directory with
  | None | Some BrokenLink =>
      Raise (FileNotFoundError ("Directory not found: " ++ directory))
  | Some (File _ _) =>
      Raise (NotADirectoryError ("Path is not a directory: " ++ directory))
  | Some (Dir _ children) =>
      pdf_files <- sorted path_key path_lt (glob_pdf directory_path children) ;;
      match pdf_files with
      | [] => Raise (ValueError ("No PDF files found in directory: " ++ directory))
      | _ :: _ => Ok pdf_files
      end
  end.

(** [int(c) if c.isdigit() else c.lower()] *)
Definition numeric_token (c : ascii) : result token :=
  if isdigit c then n <- int c ;; Ok (TInt n) else Ok (TStr (lower c)).

(** The key of the numeric mode: one item for each alphanumeric
    character of the stem. *)
Definition numeric_key (x : Entry) : result (list token) :=
  comprehension numeric_token
    (filter isalnum (list_ascii_of_string (stem (path x)))).

Definition mtime_lt (a b : Z) : result bool := Ok (a <? b)%Z.

Inductive sort_mode : Type := ByName | Numeric | ByDate.

(** Lines 119 to 128 of [main]. *)
Definition sort_files (mode : sort_mode) (pdf_files : list Entry)
  : result (list Entry) :=
  match mode with
  | Numeric => sorted numeric_key list_lt pdf_files
  | ByDate => sorted st_mtime mtime_lt pdf_files
  | ByName => Ok pdf_files
  end.

(** One turn of the loop of [combine_pdfs], lines 63 to 68: the
    announcement is outside the [try], the warning inside its handler. *)
Definition add_file (w : World) (pdf_file : Entry) : action :=
  print (stdout_encoding w) (MsgAdding (name (path pdf_file)))
  >> try_except (append pdf_file)
       (fun e => print (stdout_encoding w)
                       (MsgWarning (name (path pdf_file)) e)).

(** [combine_pdfs], statement by statement; [merger.close()] changes
    nothing that is observed. *)
Definition combine_pdfs (w : World) (pdf_files : list Entry) (output_file : string)
  : action :=
  print (stdout_encoding w) (MsgCombining (List.length pdf_files))
  >> for_each pdf_files (add_file w)
  >> print (stdout_encoding w) (MsgWriting output_file)
  >> write (write_goes w)
  >> print (stdout_encoding w) (MsgSuccess (List.length pdf_files) output_file).

(** The process as [main] finds it. *)
Definition start (w : World) : process :=
  {| merged := []; printed := []; on_disk := output_before w |}.

(** The parsed command line. *)
Record Args : Type := {
  directory : string;
  output : string;
  sort : sort_mode
}.

Definition default_args : Args :=
  {| directory := "."; output := "combined_output.pdf"; sort := Numeric |}.

(** Lines 116 to 128: the list handed to [combine_pdfs]. *)
Definition ordered_files (w : World) (args : Args) : result (list Entry) :=
  pdf_files <- get_pdf_files w (directory args) ;;
  sort_files (sort args) pdf_files.

(** The [try] block of [main]: every [Exception] becomes one line on
    the error stream and the exit status 1; falling off the end of the
    script is the exit status 0. *)
Definition main (w : World) (args : Args) : Outcome :=
  match ordered_files w args with
  | Raise e =>
      {| stdout := []; stderr := [MsgError e]; exit_status := 1;
         output_after := output_before w |}
  | Ok pdf_files =>
      let '(s, returned) := combine_pdfs w pdf_files (output args) (start w) in
      match returned with
      | Ok _ =>
          {| stdout := printed s; stderr := []; exit_status := 0;
             output_after := on_disk s |}
      | Raise e =>
          {| stdout := printed s; stderr := [MsgError e]; exit_status := 1;
             output_after := on_disk s |}
      end
  end.

(** What [parser.parse_args()] makes of the command line: it leaves the
    process itself (status 2 on a usage error, 0 after [--help]) or
    returns the arguments. *)
Inductive command_line : Type :=
| ArgparseExit (status : Z) (out err : list message)
| Parsed (args : Args).

(** The module from its first line: the import guard of lines 15 to 20,
    then [main]. *)
Definition script (w : World) (cl : command_line) : Outcome :=
  if pypdf2_importable w then
    match cl with
    | ArgparseExit status out err =>
        {| stdout := out; stderr := err; exit_status := status;
           output_after := output_before w |}
    | Parsed args => main w args
    end
  else
    {| stdout := [MsgNotInstalled; MsgInstallHint]; stderr := [];
       exit_status := 1; output_after := output_before w |}.

(** *** Notions of the specification, to compare the code with *)

(** The natural sort key in the words of the specification: of the
    alphanumeric characters, each maximal run of digits is one integer
    and each maximal run of other characters one lower-case string. *)
Inductive run : Type :=
| NoRun
| Digits (n : Z)
| Letters (s : string).

Definition close_run (r : run) : list token :=
  match r with
  | NoRun => []
  | Digits n => [TInt n]
  | Letters s => [TStr s]
  end.

Definition digit_value (c : ascii) : Z := (Z.of_N (ord c) - 48)%Z.

Fixpoint scan_runs (r : run) (l : list ascii) : list token :=
  match l with
  | [] => close_run r
  | c :: l' =>
      if isdecimal c then
        match r with
        | Digits n => scan_runs (Digits (10 * n + digit_value c)) l'
        | _ => close_run r ++ scan_runs (Digits (digit_value c)) l'
        end
      else
        match r with
        | Letters s => scan_runs (Letters (s ++ lower c)) l'
        | _ => close_run r ++ scan_runs (Letters (lower c)) l'
        end
  end.

Definition natural_key_spec (base_name : string) : list token :=
  scan_runs NoRun (filter isalnum (list_ascii_of_string base_name)).

(** The files [combine_pdfs] did append. *)
Definition appended (x : Entry) : bool :=
  match read_pdf x with
  | Ok _ => true
  | Raise _ => false
  end.

Definition pages_of (x : Entry) : list page :=
  match read_pdf x with
  | Ok ps => ps
  | Raise _ => []
  end.

Definition is_warning (m : message) : bool :=
  match m with
  | MsgWarning _ _ => true
  | _ => false
  end.

Definition is_regular_file (n : node) : bool :=
  match n with
  | File _ _ => true
  | _ => false
  end.

(** [Path.exists()] and [Path.is_dir()] on what a path string leads to. *)
Definition exists_ (n : option node) : bool :=
  match n with
  | None | Some BrokenLink => false
  | Some _ => true
  end.

Definition is_dir (n : option node) : bool :=
  match n with
  | Some (Dir _ _) => true
  | _ => false
  end.

(** The children of a directory whose name ends in [.pdf]. *)
Definition pdf_named (n : option node) : list (string * node) :=
  match n with
  | Some (Dir _ children) => filter (fun c => endswith (fst c) ".pdf") children
  | _ => []
  end.

Definition modified_at (t : Z) (x : Entry) : bool :=
  match st_mtime x with
  | Ok m => (m =? t)%Z
  | Raise _ => false
  end.

Definition not_after (a b : Entry) : Prop :=
  exists s t, st_mtime a = Ok s /\ st_mtime b = Ok t /\ (s <= t)%Z.

Definition path_le (a b : Entry) : Prop := path_ltb (path b) (path a) = false.

(** What one turn of the loop of [combine_pdfs] prints. *)
Definition lines_for (x : Entry) : list message :=
  MsgAdding (name (path x))
  :: match read_pdf x with
     | Ok _ => []
     | Raise e => [MsgWarning (name (path x)) e]
     end.

(** The lines of a run up to the final write, when each of them can
    be printed. *)
Definition progress (files : list Entry) (output_file : string)
  : list message :=
  MsgCombining (List.length files)
  :: flat_map lines_for files ++ [MsgWriting output_file].

(** The standard output takes every line of a list. *)
Definition stdout_takes (w : World) (lines : list message) : bool :=
  forallb (can_print (stdout_encoding w)) lines.

Definition is_adding (m : message) : bool :=
  match m with
  | MsgAdding _ => true
  | _ => false
  end.

(** The output path holds no cut-off document. *)
Definition no_partial_output (o : Outcome) : Prop :=
  match output_after o with
  | Truncated _ _ => False
  | _ => True
  end.

(** Two statements of the specification which the code does not meet,
    as the specification words them: a failed final write leaves no
    cut-off file at the output path; the lister returns regular files
    only. *)
Definition atomic_write_claim : Prop :=
  forall w args files,
    ordered_files w args = Ok files ->
    write_goes w <> Completes ->
    exit_status (main w args) = 1%Z /\ no_partial_output (main w args).

Definition regular_files_claim : Prop :=
  forall w d files,
    get_pdf_files w d = Ok files ->
    Forall (fun x => is_regular_file (target x) = true) files.

(** A third one: every run ends with status 0 exactly when listing,
    sort and write succeed, and otherwise with status 1 after exactly
    one line on the error stream. *)
Definition exit_status_claim : Prop :=
  forall w cl,
    (exit_status (script w cl) = 0%Z
     <-> exists args files,
           cl = Parsed args
           /\ ordered_files w args = Ok files
           /\ write_goes w = Completes)
    /\ (exit_status (script w cl) <> 0%Z ->
        exit_status (script w cl) = 1%Z
        /\ exists e, stderr (script w cl) = [MsgError e]
                     /\ lines_of_print (error_text e) = 1).

(** *** Notions for the behaviour of the numeric key and of the loop *)

(** The characters of the stem of a listed file. *)
Definition stem_chars (x : Entry) : list ascii :=
  list_ascii_of_string (stem (path x)).

(** The superscript digits among the code points below 256: [isdigit]
    holds of them and [int] rejects them.  (Unicode has more such
    characters further up, U+2074 for one, which the strings of this
    model do not reach.) *)
Definition superscript_digit (c : ascii) : bool :=
  (ord c =? 178)%N || (ord c =? 179)%N || (ord c =? 185)%N.

(** Two items are of one kind when both are [int] or both are [str];
    two keys have the same shape when their items are of one kind at
    every index they share. *)
Definition same_kind (a b : token) : bool :=
  match a, b with
  | TInt _, TInt _ => true
  | TStr _, TStr _ => true
  | _, _ => false
  end.

Fixpoint same_shape (v w : list token) : bool :=
  match v, w with
  | a :: v', b :: w' => same_kind a b && same_shape v' w'
  | _, _ => true
  end.

(** [v == w] on two keys. *)
Fixpoint tokens_eqb (v w : list token) : bool :=
  match v, w with
  | [], [] => true
  | a :: v', b :: w' => token_eqb a b && tokens_eqb v' w'
  | _, _ => false
  end.

(** The number a string of decimal digits denotes, [acc] being the
    value of the digits read so far. *)
Fixpoint decimal_value (acc : Z) (l : list ascii) : Z :=
  match l with
  | [] => acc
  | c :: l' => decimal_value (10 * acc + digit_value c) l'
  end.

(** The warning of one turn of the loop, if there is one. *)
Definition warning_for (x : Entry) : list message :=
  match read_pdf x with
  | Ok _ => []
  | Raise e => [MsgWarning (name (path x)) e]
  end.

End CombinePdfs.

(* ================================================================= *)
(** ** Concrete directories                                            *)
(* ================================================================= *)

Module Examples.
Import Py PathLib Os CombinePdfs.

Definition pdf (file_name : string) (mtime : Z) (pages : list page)
  : string * node :=
  (file_name, File mtime (Pdf pages)).

(** Three encodings of the standard output. *)
Definition utf_8 : encoding :=
  {| encodes := fun _ => true;
     encodes_check_mark := true;
     refusal := fun _ => "" |}.

Definition latin_1 : encoding :=
  {| encodes := fun _ => true;
     encodes_check_mark := false;
     refusal := fun _ =>
       "'latin-1' codec can't encode character '\u2713' in position 0: ordinal not in range(256)" |}.

Definition ascii_only : encoding :=
  {| encodes := fun _ => false;
     encodes_check_mark := false;
     refusal := fun _ => "'ascii' codec can't encode character" |}.

(** A run in which the directory argument ["docs"] leads to [d]; the
    standard output is UTF-8. *)
Definition world_of (d : node) (how : write_behaviour) : World :=
  {| pypdf2_importable := true;
     resolve := fun s => if String.eqb s "docs" then Some d else None;
     output_before := Absent;
     write_goes := how;
     stdout_encoding := utf_8 |}.

(** The same with another encoding of the standard output. *)
Definition world_with (enc : encoding) (d : node) (how : write_behaviour)
  : World :=
  {| pypdf2_importable := true;
     resolve := fun s => if String.eqb s "docs" then Some d else None;
     output_before := Absent;
     write_goes := how;
     stdout_encoding := enc |}.

Definition args_of (mode : sort_mode) : Args :=
  {| directory := "docs"; output := "out.pdf"; sort := mode |}.

(** A directory argument that holds a line feed. *)
Definition two_line_args : Args :=
  {| directory := String "a" (String line_feed "b");
     output := "out.pdf"; sort := Numeric |}.

Definition names (files : list Entry) : list string :=
  map (fun x => name (path x)) files.

(** [a1.pdf], [a2.pdf] and [a10.pdf], as the directory happens to
    enumerate them. *)
Definition numbered : node :=
  Dir 0 [pdf "a2.pdf" 30 [2]; pdf "a10.pdf" 20 [10]; pdf "a1.pdf" 10 [1]].

Definition file2_file10 : node :=
  Dir 0 [pdf "file10.pdf" 1 [10]; pdf "file2.pdf" 2 [2]].

(** One name that starts with a digit, one that starts with a letter. *)
Definition digit_and_letter : node :=
  Dir 0 [pdf "1a.pdf" 1 [1]; pdf "a1.pdf" 2 [2]].

(** A readable document and one that [PdfMerger.append] rejects. *)
Definition one_damaged : node :=
  Dir 0 [pdf "a.pdf" 1 [1; 2]; ("b.pdf", File 2 (Damaged "EOF marker not found"));
         pdf "c.pdf" 3 [3]].

(** A subdirectory whose name ends in [.pdf], beside a document. *)
Definition with_subdirectory : node :=
  Dir 0 [("scans.pdf", Dir 5 [pdf "inner.pdf" 1 [7]]); pdf "report.pdf" 2 [1]].

(** No entry whose name ends in [.pdf]; the second one differs in case. *)
Definition no_pdf : node :=
  Dir 0 [("notes.txt", File 1 (Damaged "not a PDF")); pdf "SCAN.PDF" 2 [1]].

(** An installation without [PyPDF2]; an older document is at the
    output path. *)
Definition without_pypdf2 : World :=
  {| pypdf2_importable := false;
     resolve := fun _ => Some numbered;
     output_before := Whole [4];
     write_goes := Completes;
     stdout_encoding := utf_8 |}.

Definition disk_full : write_behaviour :=
  FailsAfter 0 (OSError "[Errno 28] No space left on device").

(** Two names that differ in case and punctuation only. *)
Definition mixed_case : node :=
  Dir 0 [pdf "a-1.pdf" 1 [2]; pdf "A1.pdf" 2 [1]; pdf "b.pdf" 3 [3]].

(** Numbers of one width. *)
Definition padded : node :=
  Dir 0 [pdf "010.pdf" 1 [10]; pdf "007.pdf" 2 [7]].

(** Nothing but files that [PdfMerger.append] rejects. *)
Definition all_damaged : node :=
  Dir 0 [("x.pdf", File 1 (Damaged "EOF marker not found"));
         ("y.pdf", BrokenLink)].

(** A file whose name starts with U+00E9, e with acute accent. *)
Definition accented : node :=
  Dir 0 [pdf (String (ascii_of_nat 233) ".pdf") 2 [2]; pdf "a.pdf" 1 [1]].

(** [file] is listed in a directory [d], entered as ["docs"]. *)
Definition entry (file_name : string) (n : node) : Entry :=
  {| path := ["docs"; file_name]; target := n |}.

End Examples.

(* ================================================================= *)
(** ** Facts about the built-ins                                       *)
(* ================================================================= *)

Module PyFacts.
Import Py.

(** *** The lexicographic comparison is a strict total order when the
    comparison of the items is. *)
Section LexOrder.
Context {T : Type}.
Variables eqb ltb : T -> T -> bool.
Hypothesis eqb_eq : forall a b, eqb a b = true <-> a = b.
Hypothesis ltb_irrefl : forall a, ltb a a = false.
Hypothesis ltb_trans :
  forall a b c, ltb a b = true -> ltb b c = true -> ltb a c = true.
Hypothesis ltb_total :
  forall a b, ltb a b = false -> ltb b a = false -> a = b.

Lemma eqb_refl_of_spec (a : T) : eqb a a = true.
Proof. now apply eqb_eq. Qed.

Lemma lex_ltb_irrefl (v : list T) : lex_ltb eqb ltb v v = false.
Proof.
  induction v as [|a v IH]; simpl; [reflexivity|].
  now rewrite eqb_refl_of_spec.
Qed.

Lemma lex_ltb_trans (u v w : list T) :
  lex_ltb eqb ltb u v = true -> lex_ltb eqb ltb v w = true ->
  lex_ltb eqb ltb u w = true.
Proof.
  revert v w; induction u as [|a u IH]; intros [|b v] [|c w]; simpl;
    try congruence.
  destruct (eqb a b) eqn:Eab.
  - apply eqb_eq in Eab; subst b.
    destruct (eqb a c) eqn:Eac; [apply IH | auto].
  - destruct (eqb b c) eqn:Ebc.
    + apply eqb_eq in Ebc; subst c. rewrite Eab. auto.
    + intros Hab Hbc. pose proof (ltb_trans _ _ _ Hab Hbc) as Hac.
      destruct (eqb a c) eqn:Eac; [|exact Hac].
      apply eqb_eq in Eac; subst c.
      rewrite ltb_irrefl in Hac. discriminate.
Qed.

Lemma lex_ltb_total (v w : list T) :
  lex_ltb eqb ltb v w = false -> lex_ltb eqb ltb w v = false -> v = w.
Proof.
  revert w; induction v as [|a v IH]; intros [|b w]; simpl;
    try congruence.
  destruct (eqb a b) eqn:Eab.
  - apply eqb_eq in Eab; subst b. rewrite eqb_refl_of_spec.
    intros H1 H2. f_equal. now apply IH.
  - destruct (eqb b a) eqn:Eba.
    + apply eqb_eq in Eba; subst b. rewrite eqb_refl_of_spec in Eab.
      discriminate.
    + intros H1 H2. exfalso.
      pose proof (ltb_total _ _ H1 H2) as ->.
      rewrite eqb_refl_of_spec in Eab. discriminate.
Qed.
End LexOrder.

(** *** What the insertion sort needs of [<]: a strict weak order. *)
Section WeakOrder.
Context {K : Type}.
Variable ltb : K -> K -> bool.
Hypothesis ltb_irrefl : forall a, ltb a a = false.
Hypothesis ltb_trans :
  forall a b c, ltb a b = true -> ltb b c = true -> ltb a c = true.
Hypothesis ltb_total :
  forall a b, ltb a b = false -> ltb b a = false -> a = b.

Lemma ltb_asym (a b : K) : ltb a b = true -> ltb b a = false.
Proof.
  intros Hab. destruct (ltb b a) eqn:Hba; [|reflexivity].
  rewrite <- (ltb_irrefl a). symmetry. now apply ltb_trans with b.
Qed.

Lemma ltb_negtrans (x y z : K) :
  ltb z y = false -> ltb y x = false -> ltb z x = false.
Proof.
  intros Hzy Hyx. destruct (ltb z x) eqn:Hzx; [|reflexivity].
  destruct (ltb y z) eqn:Hyz.
  - rewrite <- Hyx. symmetry. now apply ltb_trans with z.
  - pose proof (ltb_total _ _ Hzy Hyz) as ->. congruence.
Qed.
End WeakOrder.

(** *** Code points, strings and integers are strictly totally ordered. *)

Lemma ord_inj (a b : ascii) : ord a = ord b -> a = b.
Proof.
  unfold ord. intros H.
  rewrite <- (ascii_N_embedding a), <- (ascii_N_embedding b). now rewrite H.
Qed.

Lemma char_eqb_eq (a b : ascii) : char_eqb a b = true <-> a = b.
Proof.
  unfold char_eqb. rewrite N.eqb_eq. split; [apply ord_inj | now intros ->].
Qed.

Lemma char_ltb_irrefl (a : ascii) : char_ltb a a = false.
Proof. unfold char_ltb. apply N.ltb_irrefl. Qed.

Lemma char_ltb_trans (a b c : ascii) :
  char_ltb a b = true -> char_ltb b c = true -> char_ltb a c = true.
Proof. unfold char_ltb. rewrite !N.ltb_lt. lia. Qed.

Lemma char_ltb_total (a b : ascii) :
  char_ltb a b = false -> char_ltb b a = false -> a = b.
Proof.
  unfold char_ltb. rewrite !N.ltb_ge. intros H1 H2. apply ord_inj. lia.
Qed.

Lemma list_ascii_inj (s t : string) :
  list_ascii_of_string s = list_ascii_of_string t -> s = t.
Proof.
  intros H. rewrite <- (string_of_list_ascii_of_string s),
    <- (string_of_list_ascii_of_string t). now rewrite H.
Qed.

Lemma str_ltb_irrefl (s : string) : str_ltb s s = false.
Proof. apply lex_ltb_irrefl, char_eqb_eq. Qed.

Lemma str_ltb_trans (s t u : string) :
  str_ltb s t = true -> str_ltb t u = true -> str_ltb s u = true.
Proof.
  unfold str_ltb.
  apply lex_ltb_trans;
    [apply char_eqb_eq | apply char_ltb_irrefl | apply char_ltb_trans].
Qed.

Lemma str_ltb_total (s t : string) :
  str_ltb s t = false -> str_ltb t s = false -> s = t.
Proof.
  intros H1 H2. apply list_ascii_inj.
  apply (lex_ltb_total char_eqb char_ltb char_eqb_eq char_ltb_total _ _ H1 H2).
Qed.

End PyFacts.

(* ================================================================= *)
(** ** Facts about [sorted]                                            *)
(* ================================================================= *)

Module SortedFacts.
Import Py.

Section InsertionSort.
Context {A K : Type}.
Variable ltb : K -> K -> bool.

Lemma insert_pure (x : K * A) (l : list (K * A)) :
  insert (fun a b => Ok (ltb a b)) x l = Ok (insert_b ltb x l).
Proof.
  induction l as [|y l IH]; simpl; [reflexivity|].
  destruct (ltb (fst y) (fst x)); [|reflexivity].
  now rewrite IH.
Qed.

Lemma isort_pure (l : list (K * A)) :
  isort (fun a b => Ok (ltb a b)) l = Ok (isort_b ltb l).
Proof.
  induction l as [|x l IH]; simpl; [reflexivity|].
  rewrite IH. simpl. apply insert_pure.
Qed.

Lemma insert_b_perm (x : K * A) (l : list (K * A)) :
  Permutation (x :: l) (insert_b ltb x l).
Proof.
  induction l as [|y l IH]; simpl; [apply Permutation_refl|].
  destruct (ltb (fst y) (fst x)); [|apply Permutation_refl].
  eapply perm_trans; [apply perm_swap|]. now apply perm_skip.
Qed.

Lemma isort_b_perm (l : list (K * A)) : Permutation l (isort_b ltb l).
Proof.
  induction l as [|x l IH]; simpl; [constructor|].
  eapply perm_trans; [apply perm_skip, IH | apply insert_b_perm].
Qed.

(** Sortedness: no element is less than one that stands before it. *)
Section Order.
Hypothesis ltb_asym : forall a b, ltb a b = true -> ltb b a = false.
Hypothesis ltb_negtrans :
  forall x y z, ltb z y = false -> ltb y x = false -> ltb z x = false.

Lemma insert_b_sorted (x : K * A) (l : list (K * A)) :
  StronglySorted (key_le ltb) l -> StronglySorted (key_le ltb) (insert_b ltb x l).
Proof.
  induction 1 as [|y l Hs IH Hall]; simpl.
  - repeat constructor.
  - destruct (ltb (fst y) (fst x)) eqn:Hyx.
    + constructor; [exact IH|].
      eapply Permutation_Forall; [apply insert_b_perm|].
      constructor; [|exact Hall]. unfold key_le. now apply ltb_asym.
    + constructor; [now constructor|].
      constructor; [exact Hyx|].
      eapply Forall_impl; [|exact Hall].
      intros z Hz. unfold key_le in *. now apply ltb_negtrans with (fst y).
Qed.

Lemma isort_b_sorted (l : list (K * A)) :
  StronglySorted (key_le ltb) (isort_b ltb l).
Proof.
  induction l as [|x l IH]; simpl; [constructor|].
  now apply insert_b_sorted.
Qed.
End Order.

(** Stability: the elements of one key keep their order. *)
Section Stable.
Variable eqk : K -> K -> bool.
Hypothesis eqk_eq : forall a b, eqk a b = true -> a = b.
Hypothesis ltb_irrefl : forall a, ltb a a = false.

Lemma insert_b_stable (t : K) (x : K * A) (l : list (K * A)) :
  filter (fun y => eqk (fst y) t) (insert_b ltb x l)
  = filter (fun y => eqk (fst y) t) (x :: l).
Proof.
  induction l as [|y l IH]; [reflexivity|].
  cbn [insert_b]. destruct (ltb (fst y) (fst x)) eqn:Hyx; [|reflexivity].
  cbn [filter] in *. rewrite IH.
  destruct (eqk (fst y) t) eqn:Ey, (eqk (fst x) t) eqn:Ex; try reflexivity.
  apply eqk_eq in Ey, Ex. rewrite Ey, Ex, ltb_irrefl in Hyx. discriminate.
Qed.

Lemma isort_b_stable (t : K) (l : list (K * A)) :
  filter (fun y => eqk (fst y) t) (isort_b ltb l)
  = filter (fun y => eqk (fst y) t) l.
Proof.
  induction l as [|x l IH]; [reflexivity|].
  cbn [isort_b]. rewrite insert_b_stable. cbn [filter]. now rewrite IH.
Qed.
End Stable.
End InsertionSort.

(** *** The keys *)
Section Keys.
Context {A K : Type}.
Variable key : A -> result K.

Lemma comprehension_decorate (l : list A) (keyed : list (K * A)) :
  comprehension (decorate key) l = Ok keyed ->
  map snd keyed = l /\ Forall (keyed_by key) keyed.
Proof.
  revert keyed; induction l as [|x l IH]; simpl; intros keyed H.
  - inversion H; subst. split; constructor.
  - unfold decorate at 1 in H. destruct (key x) as [k|e] eqn:Hk; simpl in H;
      [|discriminate].
    destruct (comprehension (decorate key) l) as [ks|e]; simpl in H;
      [|discriminate].
    inversion H; subst. destruct (IH ks eq_refl) as [Hm Hf].
    split; [simpl; now rewrite Hm | constructor; [exact Hk | exact Hf]].
Qed.

Lemma comprehension_decorate_total (l : list A) :
  (forall x, In x l -> exists k, key x = Ok k) ->
  exists keyed, comprehension (decorate key) l = Ok keyed.
Proof.
  induction l as [|x l IH]; simpl; intros H; [now eexists|].
  destruct (H x (or_introl eq_refl)) as [k Hk].
  destruct IH as [ks Hks]; [intros y Hy; apply H; now right|].
  exists ((k, x) :: ks). unfold decorate at 1. rewrite Hk. simpl.
  now rewrite Hks.
Qed.

Lemma comprehension_decorate_raises (l : list A) (e : exn) :
  comprehension (decorate key) l = Raise e ->
  exists x, In x l /\ key x = Raise e.
Proof.
  induction l as [|x l IH]; simpl; [discriminate|].
  unfold decorate at 1. destruct (key x) as [k|e'] eqn:Hk; simpl.
  - destruct (comprehension (decorate key) l) as [ks|e'']; simpl;
      [discriminate|].
    intros H; inversion H; subst. destruct (IH eq_refl) as (y & Hy & Hr).
    exists y. auto.
  - intros H; inversion H; subst. exists x. auto.
Qed.
End Keys.

(** *** [sorted] with keys that can be computed and a [<] that cannot
    raise: it returns, and the result is the stable sorted arrangement
    of the input. *)
Section SortedSpec.
Context {A K : Type}.
Variable key : A -> result K.
Variable ltb : K -> K -> bool.
Variable eqk : K -> K -> bool.
Hypothesis eqk_eq : forall a b, eqk a b = true -> a = b.
Hypothesis ltb_irrefl : forall a, ltb a a = false.
Hypothesis ltb_trans :
  forall a b c, ltb a b = true -> ltb b c = true -> ltb a c = true.
Hypothesis ltb_total :
  forall a b, ltb a b = false -> ltb b a = false -> a = b.

Lemma filter_has_key (t : K) (s : list (K * A)) :
  Forall (keyed_by key) s ->
  filter (has_key key eqk t) (map snd s)
  = map snd (filter (fun y => eqk (fst y) t) s).
Proof.
  induction 1 as [|[k x] s Hk Hs IH]; [reflexivity|].
  cbn [map filter snd fst]. unfold has_key at 1. unfold keyed_by in Hk.
  cbn [snd fst] in Hk. rewrite Hk, IH. now destruct (eqk k t).
Qed.

Lemma sorted_key_not_after (s : list (K * A)) :
  Forall (keyed_by key) s ->
  StronglySorted (key_le ltb) s ->
  StronglySorted (key_not_after key ltb) (map snd s).
Proof.
  intros Hk Hs. induction Hs as [|x s Hs IH Hall]; simpl; [constructor|].
  inversion Hk as [|? ? Hx Hk']; subst.
  constructor; [now apply IH|].
  rewrite Forall_map. rewrite Forall_forall in Hall, Hk' |- *.
  intros y Hy. exists (fst x), (fst y).
  repeat split; [exact Hx | now apply Hk' | now apply Hall].
Qed.

Lemma sorted_spec (l : list A) :
  (forall x, In x l -> exists k, key x = Ok k) ->
  exists out,
    sorted key (fun a b => Ok (ltb a b)) l = Ok out
    /\ Permutation l out
    /\ StronglySorted (key_not_after key ltb) out
    /\ forall t, filter (has_key key eqk t) out = filter (has_key key eqk t) l.
Proof.
  intros Hkeys.
  destruct (comprehension_decorate_total key l Hkeys) as [keyed Hc].
  destruct (comprehension_decorate key l keyed Hc) as [Hm Hf].
  assert (Hf' : Forall (keyed_by key) (isort_b ltb keyed)).
  { eapply Permutation_Forall; [apply isort_b_perm | exact Hf]. }
  exists (map snd (isort_b ltb keyed)). repeat split.
  - unfold sorted. rewrite Hc. simpl. now rewrite isort_pure.
  - rewrite <- Hm at 1. apply Permutation_map, isort_b_perm.
  - apply sorted_key_not_after; [exact Hf'|].
    apply isort_b_sorted.
    + now apply PyFacts.ltb_asym.
    + now apply PyFacts.ltb_negtrans.
  - intros t. rewrite filter_has_key by exact Hf'.
    rewrite (isort_b_stable ltb eqk eqk_eq ltb_irrefl).
    rewrite <- filter_has_key by exact Hf. now rewrite Hm.
Qed.
End SortedSpec.

End SortedFacts.

(* ================================================================= *)
(** ** Facts about the script                                          *)
(* ================================================================= *)

Module ScriptFacts.
Import Py PathLib Os CombinePdfs.
Import PyFacts SortedFacts.

(** *** Paths are strictly totally ordered. *)

Lemma path_ltb_irrefl (p : Path) : path_ltb p p = false.
Proof. apply lex_ltb_irrefl, String.eqb_eq. Qed.

Lemma path_ltb_trans (p q r : Path) :
  path_ltb p q = true -> path_ltb q r = true -> path_ltb p r = true.
Proof.
  unfold path_ltb.
  apply lex_ltb_trans;
    [apply String.eqb_eq | apply str_ltb_irrefl | apply str_ltb_trans].
Qed.

Lemma path_ltb_total (p q : Path) :
  path_ltb p q = false -> path_ltb q p = false -> p = q.
Proof.
  unfold path_ltb. apply lex_ltb_total; [apply String.eqb_eq|].
  apply str_ltb_total.
Qed.

Lemma StronglySorted_weaken {A : Type} (R S : A -> A -> Prop) (l : list A) :
  (forall a b, R a b -> S a b) -> StronglySorted R l -> StronglySorted S l.
Proof.
  intros HRS. induction 1 as [|x l Hs IH Hall]; constructor; [exact IH|].
  eapply Forall_impl; [|exact Hall]. intros b; apply HRS.
Qed.

Lemma StronglySorted_filter {A : Type} (R : A -> A -> Prop) (p : A -> bool)
    (l : list A) :
  StronglySorted R l -> StronglySorted R (filter p l).
Proof.
  induction 1 as [|x l Hs IH Hall]; simpl; [constructor|].
  destruct (p x); [|exact IH].
  constructor; [exact IH|].
  rewrite Forall_forall in Hall |- *. intros y Hy.
  apply Hall. now apply filter_In in Hy.
Qed.

(** *** The first [sorted], on paths: it returns, it permutes, it
    orders. *)
Lemma sorted_paths (l : list Entry) :
  exists out,
    sorted path_key path_lt l = Ok out
    /\ Permutation l out
    /\ StronglySorted path_le out.
Proof.
  destruct (sorted_spec path_key path_ltb (fun _ _ => false)
              ltac:(discriminate) path_ltb_irrefl path_ltb_trans
              path_ltb_total l) as (out & Hs & Hp & Hso & _).
  { intros x _. now exists (path x). }
  exists out. repeat split; [exact Hs | exact Hp |].
  eapply StronglySorted_weaken; [|exact Hso].
  intros a b (ka & kb & Ha & Hb & Hlt). unfold path_key in Ha, Hb.
  inversion Ha; inversion Hb; subst. exact Hlt.
Qed.

(** What [get_pdf_files] does on a directory. *)
Lemma get_pdf_files_dir (w : World) (d : string) (mt : Z)
    (children : list (string * node)) :
  resolve w d = Some (Dir mt children) ->
  exists out,
    sorted path_key path_lt (glob_pdf (Path_of d) children) = Ok out
    /\ Permutation (glob_pdf (Path_of d) children) out
    /\ StronglySorted path_le out
    /\ get_pdf_files w d
       = match out with
         | [] => Raise (ValueError ("No PDF files found in directory: " ++ d))
         | _ :: _ => Ok out
         end.
Proof.
  intros Hr. destruct (sorted_paths (glob_pdf (Path_of d) children))
    as (out & Hs & Hp & Hso).
  exists out. repeat split; try assumption.
  unfold get_pdf_files. rewrite Hr, Hs. reflexivity.
Qed.

Lemma glob_pdf_nil (dp : Path) (children : list (string * node)) :
  glob_pdf dp children = []
  <-> filter (fun c => endswith (fst c) ".pdf") children = [].
Proof.
  unfold glob_pdf, fnmatch_pdf. split; intros H.
  - now apply map_eq_nil in H.
  - now rewrite H.
Qed.

(** *** The loop and the write of [combine_pdfs]. *)

Lemma stdout_takes_app (w : World) (l1 l2 : list message) :
  stdout_takes w (l1 ++ l2) = stdout_takes w l1 && stdout_takes w l2.
Proof. apply forallb_app. Qed.

(** One turn of the loop whose lines can be printed. *)
Lemma add_file_returns (w : World) (x : Entry) (s : process) :
  stdout_takes w (lines_for x) = true ->
  add_file w x s
  = ({| merged := merged s ++ pages_of x;
        printed := printed s ++ lines_for x;
        on_disk := on_disk s |}, Ok tt).
Proof.
  unfold stdout_takes, lines_for, pages_of, add_file, seq, try_except,
    print, append.
  destruct (read_pdf x) as [ps|e]; cbn [forallb]; intros H.
  - rewrite andb_true_r in H. rewrite H. cbv beta iota zeta.
    cbn [merged printed on_disk]. reflexivity.
  - apply andb_prop in H. destruct H as [H1 H2].
    rewrite andb_true_r in H2. rewrite H1. cbv beta iota zeta.
    cbn [merged printed on_disk]. rewrite H2.
    cbn [merged printed on_disk].
    rewrite ?app_nil_r, <- ?app_assoc. reflexivity.
Qed.

(** One turn of the loop with a line that cannot be printed: it raises
    for that line and the output path is not touched. *)
Lemma add_file_refused (w : World) (x : Entry) (s : process) :
  stdout_takes w (lines_for x) = false ->
  exists s' m,
    add_file w x s
    = (s', Raise (UnicodeEncodeError (refusal (stdout_encoding w) m)))
    /\ In m (lines_for x)
    /\ can_print (stdout_encoding w) m = false
    /\ on_disk s' = on_disk s.
Proof.
  unfold stdout_takes, lines_for, add_file, seq, try_except, print, append.
  destruct (can_print (stdout_encoding w) (MsgAdding (name (path x))))
    eqn:Hadd.
  - destruct (read_pdf x) as [ps|e]; cbn [forallb]; rewrite Hadd;
      cbn [andb]; [discriminate|].
    rewrite andb_true_r. intros Hwarn. cbv beta iota zeta.
    cbn [merged printed on_disk]. rewrite Hwarn.
    eexists _, (MsgWarning (name (path x)) e).
    split; [reflexivity|]. split; [right; now left|]. now split.
  - intros _. exists s, (MsgAdding (name (path x))).
    split; [reflexivity|]. split; [now left|]. now split.
Qed.

Lemma loop_returns (w : World) (files : list Entry) (s : process) :
  stdout_takes w (flat_map lines_for files) = true ->
  for_each files (add_file w) s
  = ({| merged := merged s ++ flat_map pages_of files;
        printed := printed s ++ flat_map lines_for files;
        on_disk := on_disk s |}, Ok tt).
Proof.
  revert s; induction files as [|x files IH]; intros s H.
  - destruct s. cbn. now rewrite !app_nil_r.
  - cbn [flat_map] in H. rewrite stdout_takes_app in H.
    apply andb_prop in H. destruct H as [Hx Hl].
    cbn [for_each]. unfold seq at 1. rewrite (add_file_returns w x s Hx).
    rewrite (IH _ Hl). cbn [merged printed on_disk flat_map].
    now rewrite <- !app_assoc.
Qed.

Lemma loop_refused (w : World) (files : list Entry) (s : process) :
  stdout_takes w (flat_map lines_for files) = false ->
  exists s' m,
    for_each files (add_file w) s
    = (s', Raise (UnicodeEncodeError (refusal (stdout_encoding w) m)))
    /\ In m (flat_map lines_for files)
    /\ can_print (stdout_encoding w) m = false
    /\ on_disk s' = on_disk s.
Proof.
  revert s; induction files as [|x files IH]; intros s H; [discriminate|].
  cbn [flat_map] in H. rewrite stdout_takes_app in H.
  cbn [for_each flat_map]. unfold seq at 1.
  destruct (stdout_takes w (lines_for x)) eqn:Hx.
  - rewrite (add_file_returns w x s Hx).
    destruct (IH {| merged := merged s ++ pages_of x;
                    printed := printed s ++ lines_for x;
                    on_disk := on_disk s |} H)
      as (s' & m & E & Hin & Hm & Hd).
    exists s', m. split; [exact E|]. split; [|now split].
    apply in_or_app. now right.
  - destruct (add_file_refused w x s Hx) as (s' & m & E & Hin & Hm & Hd).
    rewrite E. exists s', m. split; [reflexivity|]. split; [|now split].
    apply in_or_app. now left.
Qed.

(** What a loop that stops at a line has printed are lines of the loop. *)
Lemma add_file_printed (w : World) (x : Entry) (s s' : process)
    (r : result unit) :
  add_file w x s = (s', r) ->
  forall m, In m (printed s') -> In m (printed s) \/ In m (lines_for x).
Proof.
  unfold lines_for, add_file, seq, try_except, print, append.
  destruct (can_print (stdout_encoding w) (MsgAdding (name (path x)))).
  - cbv beta iota zeta. cbn [merged printed on_disk].
    destruct (read_pdf x) as [ps|e].
    + intros H; inversion H; subst. cbn [printed]. intros m Hm.
      apply in_app_or in Hm. destruct Hm as [Hm|[Hm|[]]]; auto.
      right. now left.
    + cbn [merged printed on_disk].
      destruct (can_print (stdout_encoding w)
                  (MsgWarning (name (path x)) e));
        intros H; inversion H; subst; cbn [printed]; intros m Hm.
      * apply in_app_or in Hm. destruct Hm as [Hm|[Hm|[]]];
          [|right; right; now left].
        apply in_app_or in Hm. destruct Hm as [Hm|[Hm|[]]]; auto.
        right. now left.
      * apply in_app_or in Hm. destruct Hm as [Hm|[Hm|[]]]; auto.
        right. now left.
  - intros H; inversion H; subst. auto.
Qed.

Lemma loop_printed_refused (w : World) (files : list Entry) (s : process) :
  stdout_takes w (flat_map lines_for files) = false ->
  exists s' e,
    for_each files (add_file w) s = (s', Raise e)
    /\ forall m, In m (printed s') ->
                 In m (printed s) \/ In m (flat_map lines_for files).
Proof.
  revert s; induction files as [|x files IH]; intros s H; [discriminate|].
  cbn [flat_map] in H. rewrite stdout_takes_app in H.
  cbn [for_each flat_map]. unfold seq at 1.
  destruct (stdout_takes w (lines_for x)) eqn:Hx.
  - rewrite (add_file_returns w x s Hx).
    destruct (IH {| merged := merged s ++ pages_of x;
                    printed := printed s ++ lines_for x;
                    on_disk := on_disk s |} H) as (s' & e & E & Hsub).
    exists s', e. split; [exact E|]. intros m Hm.
    destruct (Hsub m Hm) as [Hin|Hin].
    + cbn [printed] in Hin. apply in_app_or in Hin.
      destruct Hin as [Hin|Hin]; [now left | right].
      apply in_or_app. now left.
    + right. apply in_or_app. now right.
  - destruct (add_file_refused w x s Hx) as (s' & m' & E & _ & _ & _).
    pose proof (add_file_printed w x s s' _ E) as Hsub.
    rewrite E. eexists s', _. split; [reflexivity|]. intros m Hm.
    destruct (Hsub m Hm) as [Hin|Hin]; [now left | right].
    apply in_or_app. now left.
Qed.

(** [main] when every line up to the write can be printed. *)
Lemma main_spec (w : World) (args : Args) (files : list Entry) :
  ordered_files w args = Ok files ->
  stdout_takes w (progress files (output args)) = true ->
  main w args
  = match write_goes w with
    | Completes =>
        if can_print (stdout_encoding w)
             (MsgSuccess (List.length files) (output args))
        then
          {| stdout := progress files (output args)
                       ++ [MsgSuccess (List.length files) (output args)];
             stderr := []; exit_status := 0;
             output_after := Whole (flat_map pages_of files) |}
        else
          {| stdout := progress files (output args);
             stderr := [MsgError
                          (UnicodeEncodeError
                             (refusal (stdout_encoding w)
                                (MsgSuccess (List.length files)
                                   (output args))))];
             exit_status := 1;
             output_after := Whole (flat_map pages_of files) |}
    | OpenFails e =>
        {| stdout := progress files (output args); stderr := [MsgError e];
           exit_status := 1; output_after := output_before w |}
    | FailsAfter k e =>
        {| stdout := progress files (output args); stderr := [MsgError e];
           exit_status := 1;
           output_after := Truncated (flat_map pages_of files) k |}
    end.
Proof.
  intros Ho Hp. unfold main. rewrite Ho.
  unfold progress in *. cbn [stdout_takes forallb] in Hp.
  change (forallb (can_print (stdout_encoding w)) ?l)
    with (stdout_takes w l) in Hp.
  cbn [can_print andb] in Hp. rewrite stdout_takes_app in Hp.
  apply andb_prop in Hp. destruct Hp as [Hloop Hwr].
  cbn [stdout_takes forallb] in Hwr. rewrite andb_true_r in Hwr.
  unfold combine_pdfs, start.
  unfold seq at 1. unfold print at 1. cbn [can_print merged printed on_disk].
  unfold seq at 1. rewrite (loop_returns w files _ Hloop).
  cbn [merged printed on_disk app].
  unfold seq at 1. unfold print at 1. rewrite Hwr.
  cbn [merged printed on_disk].
  unfold seq at 1. unfold write, PdfMerger_write.
  cbn [merged printed on_disk].
  destruct (write_goes w) as [|e|k e]; cbv beta iota zeta;
    cbn [merged printed on_disk app]; rewrite <- ?app_assoc;
    try reflexivity.
  unfold print. cbn [merged printed on_disk can_print].
  destruct (encodes_check_mark (stdout_encoding w)
            && can_encode_str (stdout_encoding w) (output args));
    cbn [merged printed on_disk app]; rewrite <- ?app_assoc; reflexivity.
Qed.

(** [main] when one of these lines cannot be printed: the write is not
    reached. *)
Lemma main_refused (w : World) (args : Args) (files : list Entry) :
  ordered_files w args = Ok files ->
  stdout_takes w (progress files (output args)) = false ->
  exists m out,
    In m (progress files (output args))
    /\ can_print (stdout_encoding w) m = false
    /\ main w args
       = {| stdout := out;
            stderr := [MsgError (UnicodeEncodeError
                                   (refusal (stdout_encoding w) m))];
            exit_status := 1;
            output_after := output_before w |}.
Proof.
  intros Ho Hp. unfold main. rewrite Ho.
  unfold progress in *. cbn [stdout_takes forallb] in Hp.
  change (forallb (can_print (stdout_encoding w)) ?l)
    with (stdout_takes w l) in Hp.
  cbn [can_print andb] in Hp. rewrite stdout_takes_app in Hp.
  unfold combine_pdfs, start.
  unfold seq at 1. unfold print at 1. cbn [can_print merged printed on_disk].
  unfold seq at 1.
  destruct (stdout_takes w (flat_map lines_for files)) eqn:Hloop.
  - cbn [andb stdout_takes forallb] in Hp. rewrite andb_true_r in Hp.
    rewrite (loop_returns w files _ Hloop).
    cbn [merged printed on_disk app].
    unfold seq at 1. unfold print at 1. rewrite Hp.
    eexists (MsgWriting (output args)), _.
    split; [right; apply in_or_app; right; now left|].
    split; [exact Hp | reflexivity].
  - destruct (loop_refused w files
                {| merged := []; printed := [MsgCombining (List.length files)];
                   on_disk := output_before w |} Hloop)
      as (s' & m & E & Hin & Hm & Hd).
    cbn [app]. rewrite E. exists m, (printed s').
    split; [right; apply in_or_app; now left|].
    split; [exact Hm|]. cbn [on_disk] in Hd. now rewrite Hd.
Qed.

(** The numeric key has one item for each alphanumeric character of
    the stem, however the digits are grouped. *)
Lemma comprehension_length {A B : Type} (f : A -> result B) (l : list A)
    (out : list B) :
  comprehension f l = Ok out -> List.length out = List.length l.
Proof.
  revert out; induction l as [|x l IH]; simpl; intros out H.
  - now inversion H.
  - destruct (f x) as [y|e]; simpl in H; [|discriminate].
    destruct (comprehension f l) as [ys|e]; simpl in H; [|discriminate].
    inversion H; subst. simpl. now rewrite (IH ys eq_refl).
Qed.

Lemma numeric_key_length (x : Entry) (k : list token) :
  numeric_key x = Ok k ->
  List.length k
  = List.length (filter isalnum (list_ascii_of_string (stem (path x)))).
Proof. apply comprehension_length. Qed.

Lemma main_raises (w : World) (args : Args) (e : exn) :
  ordered_files w args = Raise e ->
  main w args
  = {| stdout := []; stderr := [MsgError e]; exit_status := 1;
       output_after := output_before w |}.
Proof. intros H. unfold main. now rewrite H. Qed.

End ScriptFacts.

(* ================================================================= *)
(** ** The properties of the specification                             *)
(* ================================================================= *)

Module Properties.
Import Py PathLib Os CombinePdfs Examples.
Import PyFacts SortedFacts ScriptFacts.

(** C1 (numeric mode is a natural sort: [a1], [a2], [a10] and [file2]
    before [file10], the key having one integer for each maximal run of
    digits).  The code does not do this, against its own comment at
    line 120: the key has one item for each character, so the key of
    [a10] is ['a', 1, 0] where the specification has ['a', 10], and the
    numeric mode returns [a1], [a10], [a2] and [file10] before
    [file2]. *)
Theorem numeric_mode_puts_a10_before_a2 :
  (exists files,
      ordered_files (world_of numbered Completes) (args_of Numeric) = Ok files
      /\ names files = ["a1.pdf"; "a10.pdf"; "a2.pdf"])
  /\ (exists files,
      ordered_files (world_of file2_file10 Completes) (args_of Numeric) = Ok files
      /\ names files = ["file10.pdf"; "file2.pdf"])
  /\ numeric_key {| path := ["docs"; "a10.pdf"]; target := BrokenLink |}
     = Ok [TStr "a"; TInt 1; TInt 0]
  /\ natural_key_spec "a10" = [TStr "a"; TInt 10].
Proof.
  repeat split.
  - eexists. split; [vm_compute; reflexivity | reflexivity].
  - eexists. split; [vm_compute; reflexivity | reflexivity].
Qed.

(** C2 (the success line reports the number of files that were
    combined, fewer than N when some were skipped).  The code prints the
    length of the list it was given: with [b.pdf] skipped out of three
    files the run succeeds, two files are appended and the line says
    three. *)
Theorem success_line_counts_skipped_files :
  exists files,
    ordered_files (world_of one_damaged Completes) (args_of ByName) = Ok files
    /\ List.length files = 3
    /\ List.length (filter appended files) = 2
    /\ exit_status (main (world_of one_damaged Completes) (args_of ByName)) = 0%Z
    /\ stdout (main (world_of one_damaged Completes) (args_of ByName))
       = [MsgCombining 3; MsgAdding "a.pdf"; MsgAdding "b.pdf";
          MsgWarning "b.pdf" (PdfReadError "EOF marker not found");
          MsgAdding "c.pdf"; MsgWriting "out.pdf"; MsgSuccess 3 "out.pdf"].
Proof.
  eexists. split; [vm_compute; reflexivity|].
  repeat split.
Qed.

(** C4 (the sort never raises, the numeric key comparison succeeds for
    a name that starts with a digit against one that starts with a
    letter).  On [1a.pdf] and [a1.pdf] the keys are [1, 'a'] and
    ['a', 1]; their comparison raises [TypeError], so does the sort,
    and the run ends with status 1. *)
Theorem numeric_mode_raises_on_digit_against_letter :
  list_lt [TStr "a"; TInt 1] [TInt 1; TStr "a"]
  = Raise (TypeError "'<' not supported between instances of 'str' and 'int'")
  /\ (exists files,
        get_pdf_files (world_of digit_and_letter Completes) "docs" = Ok files
        /\ names files = ["1a.pdf"; "a1.pdf"]
        /\ sort_files Numeric files
           = Raise (TypeError
                      "'<' not supported between instances of 'str' and 'int'"))
  /\ main (world_of digit_and_letter Completes) (args_of Numeric)
     = {| stdout := [];
          stderr := [MsgError (TypeError
                      "'<' not supported between instances of 'str' and 'int'")];
          exit_status := 1;
          output_after := Absent |}.
Proof.
  split; [reflexivity|]. split; [|vm_compute; reflexivity].
  eexists. split; [vm_compute; reflexivity|].
  split; [reflexivity | vm_compute; reflexivity].
Qed.

(** C10 (the import guard).  When [PyPDF2] cannot be imported the
    script prints its two lines on the standard output, nothing on the
    error stream, and exits with status 1, whatever the command line is
    and without touching the output path. *)
Theorem missing_pypdf2_exits_first (w : World) (cl : command_line) :
  pypdf2_importable w = false ->
  script w cl
  = {| stdout := [MsgNotInstalled; MsgInstallHint];
       stderr := [];
       exit_status := 1;
       output_after := output_before w |}.
Proof. intros H. unfold script. now rewrite H. Qed.

Lemma missing_pypdf2_exits_first_witness :
  pypdf2_importable without_pypdf2 = false
  /\ script without_pypdf2
            (ArgparseExit 2 [] [MsgArgparse "usage: combine_pdfs.py"])
     = {| stdout := [MsgNotInstalled; MsgInstallHint];
          stderr := [];
          exit_status := 1;
          output_after := Whole [4] |}.
Proof.
  split; [reflexivity|].
  apply (missing_pypdf2_exits_first without_pypdf2). reflexivity.
Defined.

Lemma lines_of_error_text (e : exn) :
  lines_of_print (error_text e) = lines_of_print (str_of_exn e).
Proof. reflexivity. Qed.

Lemma one_line_without_line_feed (s : string) :
  contains line_feed s = false -> lines_of_print s = 1.
Proof.
  unfold contains, lines_of_print. intros H. f_equal.
  induction (list_ascii_of_string s) as [|c l IH]; [reflexivity|].
  cbn [existsb] in H. apply orb_false_elim in H. destruct H as [Hc Hl].
  cbn [filter]. rewrite Hc. now apply IH.
Qed.

(** C8, as stated (every run ends with status 0 exactly when the whole
    pipeline succeeds, and otherwise with status 1 after exactly one
    line on the error stream): false.  Without [PyPDF2] the run ends
    with status 1 and nothing on the error stream; on a standard output
    that cannot encode the check mark of the success line the document
    is written whole and the run ends with status 1; and for a
    directory argument with a line feed in it the error text has two
    lines. *)
Lemma some_runs_end_otherwise :
  (exit_status (script without_pypdf2 (Parsed (args_of Numeric))) = 1%Z
   /\ stderr (script without_pypdf2 (Parsed (args_of Numeric))) = [])
  /\ (ordered_files (world_with latin_1 numbered Completes) (args_of ByName)
      = Ok [ {| path := ["docs"; "a1.pdf"]; target := File 10 (Pdf [1]) |};
             {| path := ["docs"; "a10.pdf"]; target := File 20 (Pdf [10]) |};
             {| path := ["docs"; "a2.pdf"]; target := File 30 (Pdf [2]) |} ]
      /\ output_after (script (world_with latin_1 numbered Completes)
                               (Parsed (args_of ByName)))
         = Whole [1; 10; 2]
      /\ exit_status (script (world_with latin_1 numbered Completes)
                              (Parsed (args_of ByName))) = 1%Z)
  /\ (exists e,
        stderr (script (world_of numbered Completes) (Parsed two_line_args))
        = [MsgError e]
        /\ lines_of_print (error_text e) = 2)
  /\ ~ exit_status_claim.
Proof.
  split; [split; reflexivity|].
  split; [repeat split; vm_compute; reflexivity|].
  split; [eexists; split; vm_compute; reflexivity|].
  intros claim.
  destruct (claim without_pypdf2 (Parsed (args_of Numeric))) as [_ H].
  destruct H as [_ (e & He & _)]; [discriminate|]. discriminate He.
Qed.

(** C8, amended: every run in which [PyPDF2] is imported and the
    command line is accepted ends with status 0 exactly when the
    listing, the sort, every print to the standard output and the final
    write succeed, and then prints nothing on the error stream; in
    every other case (the directory is missing or is no directory, no
    PDF is found, the sort or the write raises, the standard output
    cannot encode a line) it ends with status 1 after one [print] to
    the error stream, of "Error: " followed by the text of the
    exception, and nothing else there; that is one line whenever the
    text of the exception has no line feed. *)
Theorem run_exit_status (w : World) (args : Args) :
  pypdf2_importable w = true ->
  (exit_status (script w (Parsed args)) = 0%Z
   /\ stderr (script w (Parsed args)) = []
   /\ exists files,
        ordered_files w args = Ok files
        /\ write_goes w = Completes
        /\ stdout_takes w
             (progress files (output args)
              ++ [MsgSuccess (List.length files) (output args)]) = true)
  \/ (exit_status (script w (Parsed args)) = 1%Z
      /\ exists e,
           stderr (script w (Parsed args)) = [MsgError e]
           /\ (contains line_feed (str_of_exn e) = false ->
               lines_of_print (error_text e) = 1)
           /\ (ordered_files w args = Raise e
               \/ exists files,
                    ordered_files w args = Ok files
                    /\ ((stdout_takes w (progress files (output args)) = true
                         /\ (write_goes w = OpenFails e
                             \/ exists k, write_goes w = FailsAfter k e))
                        \/ exists m,
                             In m (progress files (output args)
                                   ++ [MsgSuccess (List.length files)
                                         (output args)])
                             /\ can_print (stdout_encoding w) m = false
                             /\ e = UnicodeEncodeError
                                      (refusal (stdout_encoding w) m)))).
Proof.
  intros Hi. unfold script. rewrite Hi.
  assert (Hline : forall e, contains line_feed (str_of_exn e) = false ->
                            lines_of_print (error_text e) = 1).
  { intros e H. rewrite lines_of_error_text.
    now apply one_line_without_line_feed. }
  destruct (ordered_files w args) as [files|e] eqn:Ho.
  - destruct (stdout_takes w (progress files (output args))) eqn:Hp.
    + rewrite (main_spec w args files Ho Hp).
      destruct (write_goes w) as [|e|k e] eqn:Hw.
      * destruct (can_print (stdout_encoding w)
                    (MsgSuccess (List.length files) (output args))) eqn:Hs.
        -- left. cbn [exit_status stderr]. repeat split.
           exists files. repeat split.
           rewrite stdout_takes_app, Hp. cbn [stdout_takes forallb].
           now rewrite Hs.
        -- right. cbn [exit_status stderr]. split; [reflexivity|].
           eexists. split; [reflexivity|]. split; [apply Hline|].
           right. exists files. split; [reflexivity|]. right.
           eexists. split; [apply in_or_app; right; now left|].
           split; [exact Hs | reflexivity].
      * right. cbn [exit_status stderr]. split; [reflexivity|].
        exists e. split; [reflexivity|]. split; [apply Hline|].
        right. exists files. split; [reflexivity|]. left. auto.
      * right. cbn [exit_status stderr]. split; [reflexivity|].
        exists e. split; [reflexivity|]. split; [apply Hline|].
        right. exists files. split; [reflexivity|]. left.
        split; [exact Hp|]. right. now exists k.
    + destruct (main_refused w args files Ho Hp) as (m & out & Hin & Hm & E).
      rewrite E. right. cbn [exit_status stderr]. split; [reflexivity|].
      eexists. split; [reflexivity|]. split; [apply Hline|].
      right. exists files. split; [reflexivity|]. right.
      exists m. split; [apply in_or_app; now left|]. now split.
  - rewrite (main_raises w args e Ho). right.
    cbn [exit_status stderr]. split; [reflexivity|].
    exists e. split; [reflexivity|]. split; [apply Hline|]. now left.
Qed.

Lemma run_exit_status_witness :
  exit_status (script (world_of one_damaged Completes)
                      (Parsed (args_of ByDate))) = 0%Z
  /\ exit_status (script (world_with latin_1 one_damaged Completes)
                         (Parsed (args_of ByDate))) = 1%Z.
Proof.
  split.
  - destruct (run_exit_status (world_of one_damaged Completes)
                (args_of ByDate) eq_refl) as [[H _]|[H _]];
      [exact H | vm_compute in H; discriminate H].
  - destruct (run_exit_status (world_with latin_1 one_damaged Completes)
                (args_of ByDate) eq_refl) as [[H _]|[H _]];
      [vm_compute in H; discriminate H | exact H].
Defined.

(** C3, as stated (a failed final write fails the run and leaves no
    cut-off or empty file at the output path): false.  The disk is full
    when the first byte is to be written: the run ends with status 1,
    and the output path, at which there was nothing, now holds the
    first zero bytes of the document. *)
Lemma failed_write_leaves_empty_file :
  exit_status (main (world_of numbered disk_full) (args_of ByName)) = 1%Z
  /\ output_before (world_of numbered disk_full) = Absent
  /\ output_after (main (world_of numbered disk_full) (args_of ByName))
     = Truncated [1; 10; 2] 0
  /\ ~ atomic_write_claim.
Proof.
  repeat split.
  intros claim.
  destruct (claim (world_of numbered disk_full) (args_of ByName)
                  [ {| path := ["docs"; "a1.pdf"]; target := File 10 (Pdf [1]) |};
                    {| path := ["docs"; "a10.pdf"]; target := File 20 (Pdf [10]) |};
                    {| path := ["docs"; "a2.pdf"]; target := File 30 (Pdf [2]) |} ])
    as [_ Hno].
  - vm_compute; reflexivity.
  - discriminate.
  - exact Hno.
Qed.

(** C3, amended: when the final write fails the exception reaches
    [main], which prints the one error line and ends with status 1; the
    script writes straight to the output path and does nothing about
    the file afterwards, so the path holds what the failed write left:
    its former state when the file could not be opened, otherwise the
    part of the document that was written.  (The write is reached when
    the lines before it can be printed; a run that stops at one of them
    also ends with status 1, the output path being as it was.) *)
Theorem failed_write_fails_the_run (w : World) (args : Args)
    (files : list Entry) :
  ordered_files w args = Ok files ->
  write_goes w <> Completes ->
  exit_status (main w args) = 1%Z
  /\ (exists e, stderr (main w args) = [MsgError e]
                /\ (stdout_takes w (progress files (output args)) = true ->
                    snd (PdfMerger_write (write_goes w)
                           (flat_map pages_of files) (output_before w))
                    = Raise e))
  /\ output_after (main w args)
     = if stdout_takes w (progress files (output args)) then
         match write_goes w with
         | OpenFails _ => output_before w
         | FailsAfter k _ => Truncated (flat_map pages_of files) k
         | Completes => Whole (flat_map pages_of files)
         end
       else output_before w.
Proof.
  intros Ho Hw.
  destruct (stdout_takes w (progress files (output args))) eqn:Hp.
  - rewrite (main_spec w args files Ho Hp).
    destruct (write_goes w) as [|e|k e]; [contradiction| |];
      cbn [exit_status stderr output_after PdfMerger_write snd];
      (split; [reflexivity|]); (split; [now exists e | reflexivity]).
  - destruct (main_refused w args files Ho Hp) as (m & out & _ & _ & E).
    rewrite E. cbn [exit_status stderr output_after].
    split; [reflexivity|]. split; [|reflexivity].
    eexists. split; [reflexivity | discriminate].
Qed.

Lemma failed_write_fails_the_run_witness :
  exit_status (main (world_of numbered disk_full) (args_of Numeric)) = 1%Z
  /\ (exists e,
        stderr (main (world_of numbered disk_full) (args_of Numeric))
        = [MsgError e]
        /\ (stdout_takes (world_of numbered disk_full)
              [MsgCombining 3; MsgAdding "a1.pdf"; MsgAdding "a10.pdf";
               MsgAdding "a2.pdf"; MsgWriting "out.pdf"] = true ->
            snd (PdfMerger_write disk_full [1; 10; 2] Absent) = Raise e))
  /\ output_after (main (world_of numbered disk_full) (args_of Numeric))
     = Truncated [1; 10; 2] 0.
Proof.
  apply (failed_write_fails_the_run (world_of numbered disk_full)
           (args_of Numeric)
           [ {| path := ["docs"; "a1.pdf"]; target := File 10 (Pdf [1]) |};
             {| path := ["docs"; "a10.pdf"]; target := File 20 (Pdf [10]) |};
             {| path := ["docs"; "a2.pdf"]; target := File 30 (Pdf [2]) |} ]).
  - vm_compute; reflexivity.
  - simpl; discriminate.
Defined.

Ltac no_such_case :=
  repeat match goal with
         | H : exists _, _ |- _ => destruct H
         | H : _ /\ _ |- _ => destruct H
         end;
  try discriminate; try reflexivity; try (eexists; reflexivity).

(** C5 (errors of the lister).  [get_pdf_files] raises
    [FileNotFoundError] exactly when the path does not exist,
    [NotADirectoryError] exactly when it exists and is no directory, and
    [ValueError] (the specification's [EmptyResultError]) exactly when
    it is a directory none of whose entries has a name ending in
    [.pdf]; in that last case [main] ends with status 1, prints the
    error line only, and the output path is as it was. *)
Theorem get_pdf_files_errors (w : World) (d : string) :
  ((exists m, get_pdf_files w d = Raise (FileNotFoundError m))
   <-> exists_ (resolve w d) = false)
  /\ ((exists m, get_pdf_files w d = Raise (NotADirectoryError m))
      <-> exists_ (resolve w d) = true /\ is_dir (resolve w d) = false)
  /\ ((exists m, get_pdf_files w d = Raise (ValueError m))
      <-> is_dir (resolve w d) = true /\ pdf_named (resolve w d) = [])
  /\ (is_dir (resolve w d) = true /\ pdf_named (resolve w d) = [] ->
      forall args, directory args = d ->
        main w args
        = {| stdout := [];
             stderr := [MsgError (ValueError
                          ("No PDF files found in directory: " ++ d))];
             exit_status := 1;
             output_after := output_before w |}).
Proof.
  destruct (resolve w d) as [[mt b|mt children|]|] eqn:Hr.
  - (* a regular file *)
    assert (Hg : get_pdf_files w d
                 = Raise (NotADirectoryError ("Path is not a directory: " ++ d)))
      by (unfold get_pdf_files; now rewrite Hr).
    rewrite Hg. simpl. repeat split; intros; no_such_case.
  - (* a directory *)
    destruct (get_pdf_files_dir w d mt children Hr)
      as (out & _ & Hp & _ & Hg).
    assert (Hnil : out = [] <-> filter (fun c => endswith (fst c) ".pdf") children = []).
    { rewrite <- (glob_pdf_nil (Path_of d)). split; intros H.
      - subst out. now apply Permutation_sym, Permutation_nil in Hp.
      - rewrite H in Hp. now apply Permutation_nil in Hp. }
    simpl. split; [|split; [|split]].
    + split; [|discriminate]. intros [m H]. rewrite Hg in H.
      destruct out; discriminate.
    + split; [|intros [_ H]; discriminate]. intros [m H]. rewrite Hg in H.
      destruct out; discriminate.
    + split.
      * intros [m H]. split; [reflexivity|]. apply Hnil.
        rewrite Hg in H. destruct out; [reflexivity | discriminate].
      * intros [_ H]. apply Hnil in H. subst out. rewrite Hg. now eexists.
    + intros [_ H] args Ha. apply Hnil in H. subst out.
      apply main_raises. unfold ordered_files. rewrite Ha, Hg. reflexivity.
  - (* a link to nothing *)
    assert (Hg : get_pdf_files w d
                 = Raise (FileNotFoundError ("Directory not found: " ++ d)))
      by (unfold get_pdf_files; now rewrite Hr).
    rewrite Hg. simpl. repeat split; intros; no_such_case.
  - (* nothing *)
    assert (Hg : get_pdf_files w d
                 = Raise (FileNotFoundError ("Directory not found: " ++ d)))
      by (unfold get_pdf_files; now rewrite Hr).
    rewrite Hg. simpl. repeat split; intros; no_such_case.
Qed.

Lemma get_pdf_files_errors_witness :
  main (world_of no_pdf Completes) (args_of Numeric)
  = {| stdout := [];
       stderr := [MsgError (ValueError "No PDF files found in directory: docs")];
       exit_status := 1;
       output_after := Absent |}.
Proof.
  apply (proj2 (proj2 (proj2
           (get_pdf_files_errors (world_of no_pdf Completes) "docs")))).
  - split; reflexivity.
  - reflexivity.
Defined.

(** C6, as stated (the lister returns regular files only): false.  A
    subdirectory named [scans.pdf] is listed beside [report.pdf]; what
    is inside it is not. *)
Lemma subdirectory_is_listed :
  get_pdf_files (world_of with_subdirectory Completes) "docs"
  = Ok [ {| path := ["docs"; "report.pdf"]; target := File 2 (Pdf [1]) |};
         {| path := ["docs"; "scans.pdf"];
            target := Dir 5 [pdf "inner.pdf" 1 [7]] |} ]
  /\ ~ regular_files_claim.
Proof.
  assert (H : get_pdf_files (world_of with_subdirectory Completes) "docs"
              = Ok [ {| path := ["docs"; "report.pdf"];
                        target := File 2 (Pdf [1]) |};
                     {| path := ["docs"; "scans.pdf"];
                        target := Dir 5 [pdf "inner.pdf" 1 [7]] |} ])
    by (vm_compute; reflexivity).
  split; [exact H|].
  intros claim. specialize (claim _ _ _ H).
  inversion claim as [|? ? _ Hrest]; subst.
  inversion Hrest as [|? ? Hdir _]; subst.
  discriminate Hdir.
Qed.

Lemma joinpath_inj (p : Path) (a b : string) :
  joinpath p a = joinpath p b -> a = b.
Proof.
  unfold joinpath. intros H. apply app_inv_head in H. now inversion H.
Qed.

(** C6, amended: on a directory with at least one entry whose name ends
    in [.pdf], the lister returns the entries directly under it whose
    name ends in [.pdf] with the case as given, whatever they are
    (regular files, but also subdirectories and links to nothing), each
    of them once and none from further down, in ascending order of
    their paths. *)
Theorem get_pdf_files_lists_pdf_named_entries (w : World) (d : string)
    (mt : Z) (children : list (string * node)) :
  resolve w d = Some (Dir mt children) ->
  filter (fun c => endswith (fst c) ".pdf") children <> [] ->
  exists files,
    get_pdf_files w d = Ok files
    /\ Permutation
         (map (fun c => {| path := Path_of d ++ [fst c]; target := snd c |})
              (filter (fun c => endswith (fst c) ".pdf") children))
         files
    /\ StronglySorted path_le files
    /\ (NoDup (map fst children) -> NoDup (map path files)).
Proof.
  intros Hr Hne.
  destruct (get_pdf_files_dir w d mt children Hr) as (out & _ & Hp & Hso & Hg).
  exists out. split; [|split; [exact Hp | split; [exact Hso|]]].
  - rewrite Hg. destruct out; [|reflexivity].
    apply Permutation_sym, Permutation_nil in Hp.
    apply glob_pdf_nil in Hp. contradiction.
  - intros Hnd.
    eapply Permutation_NoDup; [apply Permutation_map, Hp|].
    unfold glob_pdf. rewrite map_map. cbn [path].
    rewrite <- (map_map fst (joinpath (Path_of d))).
    apply Finite.Injective_map_NoDup; [intros a b; apply joinpath_inj|].
    clear -Hnd. induction children as [|c children IH]; simpl; [constructor|].
    inversion Hnd as [|? ? Hnotin Hnd']; subst.
    destruct (fnmatch_pdf (fst c)); [|now apply IH].
    simpl. constructor; [|now apply IH].
    intros Hin. apply Hnotin. apply in_map_iff in Hin.
    destruct Hin as (x & Hx & Hin). apply filter_In in Hin.
    apply in_map_iff. exists x. now split.
Qed.

Lemma get_pdf_files_lists_pdf_named_entries_witness :
  exists files,
    get_pdf_files (world_of with_subdirectory Completes) "docs" = Ok files
    /\ Permutation
         [ {| path := ["docs"; "scans.pdf"];
              target := Dir 5 [pdf "inner.pdf" 1 [7]] |};
           {| path := ["docs"; "report.pdf"]; target := File 2 (Pdf [1]) |} ]
         files
    /\ StronglySorted path_le files
    /\ (NoDup ["scans.pdf"; "report.pdf"] -> NoDup (map path files)).
Proof.
  apply (get_pdf_files_lists_pdf_named_entries
           (world_of with_subdirectory Completes) "docs" 0
           [("scans.pdf", Dir 5 [pdf "inner.pdf" 1 [7]]); pdf "report.pdf" 2 [1]]).
  - reflexivity.
  - simpl; discriminate.
Defined.

Lemma no_warning_for_appended (l : list Entry) :
  Forall (fun x => appended x = true) l ->
  filter is_warning (flat_map lines_for l) = [].
Proof.
  induction 1 as [|x l Hx Hl IH]; [reflexivity|].
  cbn [flat_map]. rewrite filter_app, IH. unfold lines_for.
  unfold appended in Hx. destruct (read_pdf x); [reflexivity | discriminate].
Qed.

Lemma adding_lines (l : list Entry) :
  filter is_adding (flat_map lines_for l)
  = map (fun x => MsgAdding (name (path x))) l.
Proof.
  induction l as [|x l IH]; [reflexivity|].
  cbn [flat_map map]. rewrite filter_app, IH. unfold lines_for.
  destruct (read_pdf x); reflexivity.
Qed.

(** C7 (one unreadable file).  When the list handed to the merger has
    one file that cannot be appended among files that can, the standard
    output takes the lines of the run and the final write succeeds, the
    run ends with status 0, every file of the list is announced in
    order, exactly one warning is printed, which names the unreadable
    file and carries the text of its exception, and the document
    written holds the pages of the other files in their order. *)
Theorem one_unreadable_file_is_skipped (w : World) (args : Args)
    (pre post : list Entry) (bad : Entry) (e : exn) :
  ordered_files w args = Ok (pre ++ bad :: post) ->
  Forall (fun x => appended x = true) (pre ++ post) ->
  read_pdf bad = Raise e ->
  write_goes w = Completes ->
  stdout_takes w
    (progress (pre ++ bad :: post) (output args)
     ++ [MsgSuccess (List.length (pre ++ bad :: post)) (output args)]) = true ->
  exit_status (main w args) = 0%Z
  /\ stderr (main w args) = []
  /\ filter is_warning (stdout (main w args))
     = [MsgWarning (name (path bad)) e]
  /\ filter is_adding (stdout (main w args))
     = map (fun x => MsgAdding (name (path x))) (pre ++ bad :: post)
  /\ output_after (main w args) = Whole (flat_map pages_of (pre ++ post)).
Proof.
  intros Ho Hok Hbad Hw Hout.
  rewrite stdout_takes_app in Hout. apply andb_prop in Hout.
  destruct Hout as [Hp Hs]. cbn [stdout_takes forallb] in Hs.
  rewrite andb_true_r in Hs.
  rewrite (main_spec w args _ Ho Hp), Hw, Hs.
  cbn [exit_status stderr stdout output_after]. unfold progress.
  apply Forall_app in Hok. destruct Hok as [Hpre Hpost].
  pose proof (no_warning_for_appended pre Hpre) as Wpre.
  pose proof (no_warning_for_appended post Hpost) as Wpost.
  repeat split.
  - rewrite filter_app. cbn [filter is_warning].
    rewrite filter_app, flat_map_app, filter_app.
    cbn [flat_map]. rewrite filter_app, Wpre, Wpost.
    unfold lines_for. rewrite Hbad. reflexivity.
  - rewrite filter_app. cbn [filter is_adding].
    rewrite filter_app, adding_lines. cbn [filter is_adding].
    now rewrite !app_nil_r.
  - f_equal. rewrite !flat_map_app. cbn [flat_map].
    unfold pages_of at 2. now rewrite Hbad.
Qed.

Lemma one_unreadable_file_is_skipped_witness :
  exit_status (main (world_of one_damaged Completes) (args_of Numeric)) = 0%Z
  /\ stderr (main (world_of one_damaged Completes) (args_of Numeric)) = []
  /\ filter is_warning
       (stdout (main (world_of one_damaged Completes) (args_of Numeric)))
     = [MsgWarning "b.pdf" (PdfReadError "EOF marker not found")]
  /\ filter is_adding
       (stdout (main (world_of one_damaged Completes) (args_of Numeric)))
     = [MsgAdding "a.pdf"; MsgAdding "b.pdf"; MsgAdding "c.pdf"]
  /\ output_after (main (world_of one_damaged Completes) (args_of Numeric))
     = Whole [1; 2; 3].
Proof.
  apply (one_unreadable_file_is_skipped
           (world_of one_damaged Completes) (args_of Numeric)
           [ {| path := ["docs"; "a.pdf"]; target := File 1 (Pdf [1; 2]) |} ]
           [ {| path := ["docs"; "c.pdf"]; target := File 3 (Pdf [3]) |} ]
           {| path := ["docs"; "b.pdf"];
              target := File 2 (Damaged "EOF marker not found") |}
           (PdfReadError "EOF marker not found")).
  - vm_compute; reflexivity.
  - repeat constructor.
  - reflexivity.
  - reflexivity.
  - vm_compute; reflexivity.
Defined.

(** C9 (date mode).  On every list of entries whose time stamps can be
    read, the date mode returns the same entries in ascending order of
    their time stamps, and the entries of one time stamp stand in the
    order they had in the list given; that list being the alphabetical
    listing, they stand in alphabetical order. *)
Theorem date_mode_is_stable (files : list Entry) :
  (forall x, In x files -> exists m, st_mtime x = Ok m) ->
  exists out,
    sort_files ByDate files = Ok out
    /\ Permutation files out
    /\ StronglySorted not_after out
    /\ (forall t, filter (modified_at t) out = filter (modified_at t) files)
    /\ (StronglySorted path_le files ->
        forall t, StronglySorted path_le (filter (modified_at t) out)).
Proof.
  intros Hstat.
  destruct (sorted_spec st_mtime Z.ltb Z.eqb
              (fun a b H => proj1 (Z.eqb_eq a b) H) Z.ltb_irrefl
              ltac:(intros a b c; rewrite !Z.ltb_lt; lia)
              ltac:(intros a b; rewrite !Z.ltb_ge; lia)
              files Hstat) as (out & Hs & Hp & Hso & Hst).
  exists out. split; [exact Hs|]. split; [exact Hp|].
  split; [|split].
  - eapply StronglySorted_weaken; [|exact Hso].
    intros a b (s & t & Ha & Hb & Hlt). exists s, t.
    repeat split; try assumption. apply Z.ltb_ge. exact Hlt.
  - exact Hst.
  - intros Halpha t.
    change (modified_at t) with (has_key st_mtime Z.eqb t).
    rewrite Hst. now apply StronglySorted_filter.
Qed.

Lemma date_mode_is_stable_witness :
  exists out,
    sort_files ByDate
      [ {| path := ["docs"; "a.pdf"]; target := File 9 (Pdf [1]) |};
        {| path := ["docs"; "b.pdf"]; target := File 5 (Pdf [2]) |};
        {| path := ["docs"; "c.pdf"]; target := File 5 (Pdf [3]) |};
        {| path := ["docs"; "d.pdf"]; target := File 9 (Pdf [4]) |} ] = Ok out
    /\ names out = ["b.pdf"; "c.pdf"; "a.pdf"; "d.pdf"].
Proof.
  destruct (date_mode_is_stable
      [ {| path := ["docs"; "a.pdf"]; target := File 9 (Pdf [1]) |};
        {| path := ["docs"; "b.pdf"]; target := File 5 (Pdf [2]) |};
        {| path := ["docs"; "c.pdf"]; target := File 5 (Pdf [3]) |};
        {| path := ["docs"; "d.pdf"]; target := File 9 (Pdf [4]) |} ])
    as (out & Hs & _).
  - intros x [<-|[<-|[<-|[<-|[]]]]]; eexists; reflexivity.
  - exists out. split; [exact Hs|].
    vm_compute in Hs. inversion Hs. reflexivity.
Defined.

End Properties.

(* ================================================================= *)
(** ** [sorted] when a comparison may raise                            *)
(* ================================================================= *)

Module SortedRaising.
Import Py.

Section Insertion.
Context {A K : Type}.
Variable lt : K -> K -> result bool.

Lemma insert_ok_perm (x : K * A) (l r : list (K * A)) :
  insert lt x l = Ok r -> Permutation (x :: l) r.
Proof.
  revert r; induction l as [|y l IH]; simpl; intros r H.
  - inversion H; subst. apply Permutation_refl.
  - destruct (lt (fst y) (fst x)) as [[|]|e]; simpl in H; try discriminate.
    + destruct (insert lt x l) as [r'|e]; simpl in H; [|discriminate].
      inversion H; subst.
      eapply perm_trans; [apply perm_swap|]. apply perm_skip. now apply IH.
    + inversion H; subst. apply Permutation_refl.
Qed.

Lemma isort_ok_perm (l r : list (K * A)) :
  isort lt l = Ok r -> Permutation l r.
Proof.
  revert r; induction l as [|x l IH]; simpl; intros r H.
  - inversion H; subst. constructor.
  - destruct (isort lt l) as [s|e]; simpl in H; [|discriminate].
    eapply perm_trans; [apply perm_skip, IH; reflexivity|].
    now apply insert_ok_perm.
Qed.

(** The insertion returns when the new key can be compared with every
    key present. *)
Lemma insert_returns (x : K * A) (l : list (K * A)) :
  (forall y, In y l -> exists b, lt (fst y) (fst x) = Ok b) ->
  exists r, insert lt x l = Ok r.
Proof.
  induction l as [|y l IH]; simpl; intros H; [now eexists|].
  destruct (H y (or_introl eq_refl)) as [b Hb]. rewrite Hb. simpl.
  destruct b; [|now eexists].
  destruct IH as [r Hr]; [intros z Hz; apply H; now right|].
  rewrite Hr. simpl. now eexists.
Qed.

Lemma isort_returns (l : list (K * A)) :
  (forall x y, In x l -> In y l -> exists b, lt (fst y) (fst x) = Ok b) ->
  exists r, isort lt l = Ok r.
Proof.
  induction l as [|x l IH]; simpl; intros H; [now eexists|].
  destruct IH as [s Hs]; [intros a b Ha Hb; apply H; now right|].
  rewrite Hs. simpl. apply insert_returns.
  intros y Hy. apply H; [now left|]. right.
  apply Permutation_in with s; [|exact Hy].
  apply Permutation_sym. now apply isort_ok_perm.
Qed.

(** Stability, as long as no key is less than itself. *)
Section Stable.
Variable eqk : K -> K -> bool.
Hypothesis eqk_eq : forall a b, eqk a b = true -> a = b.
Hypothesis lt_irrefl : forall a, lt a a = Ok false.

Lemma insert_ok_stable (t : K) (x : K * A) (l r : list (K * A)) :
  insert lt x l = Ok r ->
  filter (fun y => eqk (fst y) t) r = filter (fun y => eqk (fst y) t) (x :: l).
Proof.
  revert r; induction l as [|y l IH]; intros r H.
  - simpl in H. inversion H; subst. reflexivity.
  - cbn [insert] in H.
    destruct (lt (fst y) (fst x)) as [[|]|e] eqn:Hyx; simpl in H;
      try discriminate.
    + destruct (insert lt x l) as [r'|e]; simpl in H; [|discriminate].
      inversion H; subst. cbn [filter] in *. rewrite (IH r' eq_refl).
      destruct (eqk (fst y) t) eqn:Ey, (eqk (fst x) t) eqn:Ex;
        try reflexivity.
      apply eqk_eq in Ey, Ex. rewrite Ey, Ex, lt_irrefl in Hyx. discriminate.
    + inversion H; subst. reflexivity.
Qed.

Lemma isort_ok_stable (t : K) (l r : list (K * A)) :
  isort lt l = Ok r ->
  filter (fun y => eqk (fst y) t) r = filter (fun y => eqk (fst y) t) l.
Proof.
  revert r; induction l as [|x l IH]; intros r H.
  - simpl in H. inversion H; subst. reflexivity.
  - cbn [isort] in H. destruct (isort lt l) as [s|e]; simpl in H;
      [|discriminate].
    rewrite (insert_ok_stable t x s r H). cbn [filter].
    now rewrite (IH s eq_refl).
Qed.
End Stable.
End Insertion.

Section Sorted.
Context {A K : Type}.
Variable key : A -> result K.
Variable lt : K -> K -> result bool.

Lemma sorted_ok_inv (l out : list A) :
  sorted key lt l = Ok out ->
  exists keyed s,
    comprehension (decorate key) l = Ok keyed
    /\ isort lt keyed = Ok s
    /\ out = map snd s.
Proof.
  unfold sorted. intros H.
  destruct (comprehension (decorate key) l) as [keyed|e]; simpl in H;
    [|discriminate].
  destruct (isort lt keyed) as [s|e] eqn:Hs; simpl in H; [|discriminate].
  inversion H; subst. exists keyed, s. auto.
Qed.

Lemma sorted_ok_perm (l out : list A) :
  sorted key lt l = Ok out -> Permutation l out.
Proof.
  intros H. destruct (sorted_ok_inv l out H) as (keyed & s & Hc & Hs & ->).
  destruct (SortedFacts.comprehension_decorate key l keyed Hc) as [Hm _].
  rewrite <- Hm. apply Permutation_map. now apply isort_ok_perm with lt.
Qed.

Lemma sorted_ok_stable (eqk : K -> K -> bool) (l out : list A) :
  (forall a b, eqk a b = true -> a = b) ->
  (forall a, lt a a = Ok false) ->
  sorted key lt l = Ok out ->
  forall t, filter (has_key key eqk t) out = filter (has_key key eqk t) l.
Proof.
  intros Heq Hirr H t.
  destruct (sorted_ok_inv l out H) as (keyed & s & Hc & Hs & ->).
  destruct (SortedFacts.comprehension_decorate key l keyed Hc) as [Hm Hf].
  assert (Hf' : Forall (keyed_by key) s).
  { eapply Permutation_Forall; [apply (isort_ok_perm lt), Hs | exact Hf]. }
  rewrite (SortedFacts.filter_has_key key eqk t s Hf').
  rewrite (isort_ok_stable lt eqk Heq Hirr t keyed s Hs).
  rewrite <- (SortedFacts.filter_has_key key eqk t keyed Hf). now rewrite Hm.
Qed.

Lemma sorted_returns (l : list A) :
  (forall x, In x l -> exists k, key x = Ok k) ->
  (forall x y kx ky, In x l -> In y l -> key x = Ok kx -> key y = Ok ky ->
                     exists b, lt ky kx = Ok b) ->
  exists out, sorted key lt l = Ok out.
Proof.
  intros Hk Hlt.
  destruct (SortedFacts.comprehension_decorate_total key l Hk) as [keyed Hc].
  destruct (SortedFacts.comprehension_decorate key l keyed Hc) as [Hm Hf].
  destruct (isort_returns lt keyed) as [s Hs].
  { intros x y Hx Hy. rewrite Forall_forall in Hf.
    apply (Hlt (snd x) (snd y)).
    - rewrite <- Hm. now apply in_map.
    - rewrite <- Hm. now apply in_map.
    - now apply Hf.
    - now apply Hf. }
  exists (map snd s). unfold sorted. rewrite Hc. simpl. rewrite Hs. reflexivity.
Qed.

(** A key that raises ends the sort with its exception, and a
    comparison that cannot raise leaves the keys as the only cause. *)
Lemma comprehension_raises_at {B C : Type} (f : B -> result C) (l : list B)
    (x : B) (e : exn) :
  In x l -> f x = Raise e -> exists e', comprehension f l = Raise e'.
Proof.
  induction l as [|y l IH]; simpl; [contradiction|].
  intros [->|Hin] Hx.
  - rewrite Hx. now eexists.
  - destruct (f y) as [v|e']; simpl; [|now eexists].
    destruct (IH Hin Hx) as [e' He']. rewrite He'. now eexists.
Qed.
End Sorted.

End SortedRaising.

(* ================================================================= *)
(** ** Further properties of the script                                *)
(* ================================================================= *)

Module Further.
Import Py PathLib Os CombinePdfs Examples.
Import PyFacts SortedFacts ScriptFacts SortedRaising.

(** *** Keys of the numeric mode *)

Lemma token_eqb_refl (a : token) : token_eqb a a = true.
Proof. destruct a; simpl; [apply Z.eqb_refl | apply String.eqb_refl]. Qed.

Lemma token_eqb_eq (a b : token) : token_eqb a b = true -> a = b.
Proof.
  destruct a, b; simpl; try discriminate; intros H.
  - apply Z.eqb_eq in H. now subst.
  - apply String.eqb_eq in H. now subst.
Qed.

Lemma tokens_eqb_eq (v w : list token) : tokens_eqb v w = true -> v = w.
Proof.
  revert w; induction v as [|a v IH]; intros [|b w]; simpl;
    try discriminate; [reflexivity|].
  intros H. apply andb_prop in H. destruct H as [Hab Hvw].
  apply token_eqb_eq in Hab. subst. f_equal. now apply IH.
Qed.

Lemma list_lt_irrefl (k : list token) : list_lt k k = Ok false.
Proof.
  induction k as [|a k IH]; simpl; [reflexivity|].
  now rewrite token_eqb_refl.
Qed.

Lemma same_shape_comparable (v w : list token) :
  same_shape v w = true -> exists b, list_lt v w = Ok b.
Proof.
  revert w; induction v as [|a v IH]; intros [|b w]; simpl;
    try (intros _; now eexists).
  intros H. apply andb_prop in H. destruct H as [Hk Hs].
  destruct (token_eqb a b); [now apply IH|].
  destruct a, b; simpl in *; try discriminate; now eexists.
Qed.

(** X1.  In every mode the sort, when it returns, returns the entries
    it was given: none is added, none is dropped, none is doubled. *)
Theorem sort_files_permutes (mode : sort_mode) (files out : list Entry) :
  sort_files mode files = Ok out -> Permutation files out.
Proof.
  destruct mode; simpl; intros H.
  - inversion H; subst. apply Permutation_refl.
  - now apply sorted_ok_perm with numeric_key list_lt.
  - now apply sorted_ok_perm with st_mtime mtime_lt.
Qed.

Lemma sort_files_permutes_witness :
  Permutation
    [entry "a2.pdf" (File 30 (Pdf [2])); entry "a10.pdf" (File 20 (Pdf [10]));
     entry "a1.pdf" (File 10 (Pdf [1]))]
    [entry "a1.pdf" (File 10 (Pdf [1])); entry "a10.pdf" (File 20 (Pdf [10]));
     entry "a2.pdf" (File 30 (Pdf [2]))].
Proof.
  apply (sort_files_permutes ByDate).
  vm_compute; reflexivity.
Defined.

(** X2.  Whatever the mode, the list handed to [combine_pdfs] is not
    empty and holds exactly the entries of the directory whose name ends
    in [.pdf], each as often as the directory has it. *)
Theorem ordered_files_are_the_pdf_named_entries (w : World) (args : Args)
    (files : list Entry) :
  ordered_files w args = Ok files ->
  exists mt children,
    resolve w (directory args) = Some (Dir mt children)
    /\ Permutation
         (map (fun c => {| path := Path_of (directory args) ++ [fst c];
                           target := snd c |})
              (filter (fun c => endswith (fst c) ".pdf") children))
         files
    /\ files <> [].
Proof.
  unfold ordered_files. intros H.
  destruct (get_pdf_files w (directory args)) as [listed|e] eqn:Hg;
    simpl in H; [|discriminate].
  destruct (resolve w (directory args)) as [[mt b|mt children|]|] eqn:Hr;
    try (unfold get_pdf_files in Hg; rewrite Hr in Hg; discriminate).
  destruct (get_pdf_files_dir w _ mt children Hr) as (out & _ & Hp & _ & Hg').
  rewrite Hg in Hg'. destruct out as [|x out]; [discriminate|].
  inversion Hg'; subst listed.
  assert (Hperm : Permutation (x :: out) files).
  { destruct (sort args); simpl in H.
    - now inversion H.
    - now apply sorted_ok_perm with numeric_key list_lt.
    - now apply sorted_ok_perm with st_mtime mtime_lt. }
  exists mt, children. split; [reflexivity|]. split.
  - eapply perm_trans; [exact Hp | exact Hperm].
  - intros ->. now apply Permutation_sym, Permutation_nil in Hperm.
Qed.

Lemma ordered_files_are_the_pdf_named_entries_witness :
  exists mt children,
    resolve (world_of one_damaged Completes) "docs" = Some (Dir mt children)
    /\ Permutation
         (map (fun c => {| path := ["docs"] ++ [fst c]; target := snd c |})
              (filter (fun c => endswith (fst c) ".pdf") children))
         [entry "a.pdf" (File 1 (Pdf [1; 2]));
          entry "b.pdf" (File 2 (Damaged "EOF marker not found"));
          entry "c.pdf" (File 3 (Pdf [3]))]
    /\ [entry "a.pdf" (File 1 (Pdf [1; 2]));
        entry "b.pdf" (File 2 (Damaged "EOF marker not found"));
        entry "c.pdf" (File 3 (Pdf [3]))] <> [].
Proof.
  apply (ordered_files_are_the_pdf_named_entries
           (world_of one_damaged Completes) (args_of ByDate)).
  vm_compute; reflexivity.
Defined.

(** X3.  The numeric mode is stable: when it returns, the files of one
    key stand in the order in which they were listed. *)
Theorem numeric_mode_keeps_ties_in_listing_order (files out : list Entry) :
  sort_files Numeric files = Ok out ->
  forall t, filter (has_key numeric_key tokens_eqb t) out
            = filter (has_key numeric_key tokens_eqb t) files.
Proof.
  intros H. apply (sorted_ok_stable numeric_key list_lt tokens_eqb files out
                     tokens_eqb_eq list_lt_irrefl H).
Qed.

Lemma numeric_mode_keeps_ties_in_listing_order_witness :
  filter (has_key numeric_key tokens_eqb [TStr "a"; TInt 1])
    [entry "A1.pdf" (File 2 (Pdf [1])); entry "a-1.pdf" (File 1 (Pdf [2]));
     entry "b.pdf" (File 3 (Pdf [3]))]
  = filter (has_key numeric_key tokens_eqb [TStr "a"; TInt 1])
      [entry "b.pdf" (File 3 (Pdf [3])); entry "A1.pdf" (File 2 (Pdf [1]));
       entry "a-1.pdf" (File 1 (Pdf [2]))].
Proof.
  apply (numeric_mode_keeps_ties_in_listing_order
           [entry "b.pdf" (File 3 (Pdf [3])); entry "A1.pdf" (File 2 (Pdf [1]));
            entry "a-1.pdf" (File 1 (Pdf [2]))]).
  vm_compute; reflexivity.
Defined.

(** X4.  The numeric mode returns, with the entries it was given,
    whenever the key of every file can be computed and any two keys have
    items of one kind at every index they share. *)
Theorem numeric_mode_returns_on_same_shape (files : list Entry) :
  (forall x, In x files -> exists k, numeric_key x = Ok k) ->
  (forall x y kx ky, In x files -> In y files ->
     numeric_key x = Ok kx -> numeric_key y = Ok ky ->
     same_shape kx ky = true) ->
  exists out, sort_files Numeric files = Ok out /\ Permutation files out.
Proof.
  intros Hk Hs.
  destruct (sorted_returns numeric_key list_lt files Hk) as [out Hout].
  - intros x y kx ky Hx Hy Hkx Hky. apply same_shape_comparable.
    now apply (Hs y x).
  - exists out. split; [exact Hout|].
    now apply sorted_ok_perm with numeric_key list_lt.
Qed.

Lemma numeric_mode_returns_on_same_shape_witness :
  exists out,
    sort_files Numeric
      [entry "a1.pdf" (File 10 (Pdf [1])); entry "a10.pdf" (File 20 (Pdf [10]));
       entry "a2.pdf" (File 30 (Pdf [2]))] = Ok out
    /\ Permutation
         [entry "a1.pdf" (File 10 (Pdf [1]));
          entry "a10.pdf" (File 20 (Pdf [10]));
          entry "a2.pdf" (File 30 (Pdf [2]))] out.
Proof.
  apply numeric_mode_returns_on_same_shape.
  - intros x [<-|[<-|[<-|[]]]]; eexists; vm_compute; reflexivity.
  - intros x y kx ky [<-|[<-|[<-|[]]]] [<-|[<-|[<-|[]]]] Hx Hy;
      vm_compute in Hx, Hy; inversion Hx; inversion Hy; reflexivity.
Defined.

(** X5.  The date mode raises exactly when the time stamp of one of
    the entries cannot be read, as for a link whose target is gone. *)
Theorem date_mode_raises_iff_a_stat_fails (files : list Entry) :
  (exists e, sort_files ByDate files = Raise e)
  <-> exists x, In x files /\ target x = BrokenLink.
Proof.
  split.
  - intros [e H]. simpl in H. unfold sorted in H.
    destruct (comprehension (decorate st_mtime) files) as [keyed|e'] eqn:Hc.
    + simpl in H. unfold mtime_lt in H.
      rewrite (isort_pure Z.ltb keyed) in H. discriminate.
    + destruct (comprehension_decorate_raises st_mtime files e' Hc)
        as (x & Hx & Hr).
      exists x. split; [exact Hx|]. unfold st_mtime in Hr.
      destruct (target x); try discriminate. reflexivity.
  - intros (x & Hx & Hb).
    assert (Hr : decorate st_mtime x
                 = Raise (FileNotFoundError
                            ("[Errno 2] No such file or directory: "
                               ++ repr (str_of_path (path x))))).
    { unfold decorate, st_mtime. rewrite Hb. reflexivity. }
    destruct (comprehension_raises_at (decorate st_mtime) files x _ Hx Hr)
      as [e' He']. exists e'. simpl. unfold sorted. now rewrite He'.
Qed.


(** *** What the numeric key reads of a name *)

Ltac each_code_point c :=
  destruct c as [[] [] [] [] [] [] [] []]; vm_compute.

Lemma numeric_token_returns (c : ascii) :
  superscript_digit c = false -> exists t, numeric_token c = Ok t.
Proof. each_code_point c; intros H; try discriminate; now eexists. Qed.

Lemma numeric_token_raises (c : ascii) :
  superscript_digit c = true ->
  isalnum c = true /\ exists m, numeric_token c = Raise (ValueError m).
Proof.
  each_code_point c; intros H; try discriminate; split; try reflexivity;
    now eexists.
Qed.

Lemma numeric_token_lower (c : ascii) :
  numeric_token (lower_char c) = numeric_token c.
Proof. each_code_point c; reflexivity. Qed.

Lemma comprehension_returns {A B : Type} (f : A -> result B) (l : list A) :
  Forall (fun x => exists y, f x = Ok y) l ->
  exists ys, comprehension f l = Ok ys.
Proof.
  induction 1 as [|x l [y Hy] Hl [ys Hys]]; simpl; [now eexists|].
  rewrite Hy, Hys. simpl. now eexists.
Qed.

Lemma comprehension_first_raise {A B : Type} (f : A -> result B)
    (l : list A) (e : exn) :
  comprehension f l = Raise e -> exists x, In x l /\ f x = Raise e.
Proof.
  induction l as [|x l IH]; simpl; [discriminate|].
  destruct (f x) as [y|e'] eqn:Hx; simpl.
  - destruct (comprehension f l) as [ys|e'']; simpl; [discriminate|].
    intros H; inversion H; subst. destruct (IH eq_refl) as (z & Hz & Hr).
    exists z. auto.
  - intros H; inversion H; subst. exists x. auto.
Qed.

Lemma ascii_is_no_superscript (c : ascii) :
  (ord c <? 128)%N = true -> superscript_digit c = false.
Proof. each_code_point c; intros H; try discriminate; reflexivity. Qed.

(** X6.  The key function raises [ValueError] whenever the stem holds
    one of the superscript digits U+00B2, U+00B3, U+00B9, which
    [isdigit] accepts and [int] rejects; and the key can be computed
    whenever every character of the stem is ASCII. *)
Theorem numeric_key_raises_on_superscript_digits (x : Entry) :
  (Exists (fun c => superscript_digit c = true) (stem_chars x) ->
   exists m, numeric_key x = Raise (ValueError m))
  /\ (Forall (fun c => (ord c <? 128)%N = true) (stem_chars x) ->
      exists k, numeric_key x = Ok k).
Proof.
  unfold numeric_key. fold (stem_chars x). split.
  - intros H. apply Exists_exists in H. destruct H as (c & Hc & Hs).
    destruct (numeric_token_raises c Hs) as [Hal [m Hm]].
    destruct (comprehension_raises_at numeric_token
                (filter isalnum (stem_chars x)) c _
                ltac:(apply filter_In; split; [exact Hc | exact Hal]) Hm)
      as [e' He'].
    destruct (comprehension_first_raise _ _ _ He') as (c' & _ & Hc').
    destruct (superscript_digit c') eqn:Hs'.
    + destruct (numeric_token_raises c' Hs') as [_ [m' Hm']].
      exists m'. congruence.
    + destruct (numeric_token_returns c' Hs') as [t Ht]. congruence.
  - intros H. apply comprehension_returns. apply Forall_forall.
    intros c Hc. apply filter_In in Hc. destruct Hc as [Hc _].
    rewrite Forall_forall in H.
    now apply numeric_token_returns, ascii_is_no_superscript, H.
Qed.

Lemma numeric_key_raises_on_superscript_digits_witness :
  (exists m,
      numeric_key (entry (String "m" (String (ascii_of_nat 178) ".pdf"))
                         (File 1 (Pdf [1])))
      = Raise (ValueError m))
  /\ exists k, numeric_key (entry "a10.pdf" (File 20 (Pdf [10]))) = Ok k.
Proof.
  split.
  - apply (proj1 (numeric_key_raises_on_superscript_digits
                    (entry (String "m" (String (ascii_of_nat 178) ".pdf"))
                           (File 1 (Pdf [1]))))).
    right. now left.
  - apply (proj2 (numeric_key_raises_on_superscript_digits
                    (entry "a10.pdf" (File 20 (Pdf [10]))))).
    repeat constructor.
Defined.

Lemma comprehension_numeric_token_lower (l : list ascii) :
  comprehension numeric_token (map lower_char l)
  = comprehension numeric_token l.
Proof.
  induction l as [|c l IH]; simpl; [reflexivity|].
  now rewrite numeric_token_lower, IH.
Qed.

(** X7.  The numeric key reads only the alphanumeric characters of the
    stem, and those without their case: two files whose stems agree
    once the other characters are removed and the letters lowered have
    the same key. *)
Theorem numeric_key_ignores_case_and_punctuation (x y : Entry) :
  map lower_char (filter isalnum (stem_chars x))
  = map lower_char (filter isalnum (stem_chars y)) ->
  numeric_key x = numeric_key y.
Proof.
  intros H. unfold numeric_key. fold (stem_chars x) (stem_chars y).
  rewrite <- (comprehension_numeric_token_lower (filter isalnum (stem_chars x))).
  rewrite <- (comprehension_numeric_token_lower (filter isalnum (stem_chars y))).
  now rewrite H.
Qed.

Lemma numeric_key_ignores_case_and_punctuation_witness :
  numeric_key (entry "Part_2-B.pdf" BrokenLink)
  = numeric_key (entry "part 2b.pdf" BrokenLink).
Proof.
  apply numeric_key_ignores_case_and_punctuation. reflexivity.
Defined.

(** *** Numbers of one width *)

Lemma isdecimal_digit_value (c : ascii) :
  isdecimal c = true -> (0 <= digit_value c <= 9)%Z.
Proof.
  unfold isdecimal, between, digit_value. intros H.
  apply andb_prop in H. destruct H as [H1 H2].
  apply N.leb_le in H1, H2. lia.
Qed.

Lemma decimal_key (l : list ascii) :
  Forall (fun c => isdecimal c = true) l ->
  comprehension numeric_token (filter isalnum l)
  = Ok (map (fun c => TInt (digit_value c)) l).
Proof.
  induction 1 as [|c l Hc Hl IH]; [reflexivity|].
  cbn [filter]. unfold isalnum at 1. rewrite Hc, orb_true_r. simpl.
  unfold numeric_token at 1, isdigit, int. rewrite Hc. simpl.
  rewrite IH. reflexivity.
Qed.

Lemma decimal_value_acc (l : list ascii) (acc : Z) :
  Forall (fun c => isdecimal c = true) l ->
  (decimal_value acc l
   = acc * 10 ^ Z.of_nat (List.length l) + decimal_value 0 l
   /\ 0 <= decimal_value 0 l < 10 ^ Z.of_nat (List.length l))%Z.
Proof.
  intros H. revert acc.
  induction H as [|c l Hc Hl IH]; intros acc.
  - simpl. lia.
  - cbn [decimal_value List.length]. rewrite Nat2Z.inj_succ, Z.pow_succ_r by lia.
    destruct (IH (10 * acc + digit_value c)%Z) as [E1 B].
    destruct (IH (10 * 0 + digit_value c)%Z) as [E2 _].
    pose proof (isdecimal_digit_value c Hc) as Hd.
    rewrite E1, E2. split; nia.
Qed.

Lemma decimal_keys_compare (l1 l2 : list ascii) :
  Forall (fun c => isdecimal c = true) l1 ->
  Forall (fun c => isdecimal c = true) l2 ->
  List.length l1 = List.length l2 ->
  list_lt (map (fun c => TInt (digit_value c)) l1)
          (map (fun c => TInt (digit_value c)) l2)
  = Ok (decimal_value 0 l1 <? decimal_value 0 l2)%Z.
Proof.
  intros H1. revert l2. induction H1 as [|a l1 Ha Hl1 IH]; intros l2 H2 Hlen.
  - destruct l2; [reflexivity | discriminate].
  - destruct l2 as [|b l2]; [discriminate|].
    inversion H2 as [|? ? Hb Hl2]; subst. injection Hlen as Hlen.
    cbn [map list_lt token_eqb token_lt decimal_value].
    destruct (decimal_value_acc l1 (10 * 0 + digit_value a)%Z Hl1) as [E1 B1].
    destruct (decimal_value_acc l2 (10 * 0 + digit_value b)%Z Hl2) as [E2 B2].
    rewrite E1, E2, <- Hlen in *.
    destruct (Z.eqb_spec (digit_value a) (digit_value b)) as [Heq|Hne].
    + rewrite (IH l2 Hl2 Hlen). f_equal. rewrite Heq.
      destruct (Z.ltb_spec (decimal_value 0 l1) (decimal_value 0 l2));
        symmetry; [apply Z.ltb_lt | apply Z.ltb_ge]; lia.
    + f_equal.
      destruct (Z.ltb_spec (digit_value a) (digit_value b));
        symmetry; [apply Z.ltb_lt | apply Z.ltb_ge]; nia.
Qed.

(** X8.  Two files whose stems are decimal numbers of the same width
    are compared by the value of these numbers: with leading zeros the
    numeric mode is a numeric order. *)
Theorem equal_width_numbers_compare_by_value (x y : Entry) :
  Forall (fun c => isdecimal c = true) (stem_chars x) ->
  Forall (fun c => isdecimal c = true) (stem_chars y) ->
  List.length (stem_chars x) = List.length (stem_chars y) ->
  exists kx ky,
    numeric_key x = Ok kx
    /\ numeric_key y = Ok ky
    /\ list_lt kx ky
       = Ok (decimal_value 0 (stem_chars x) <? decimal_value 0 (stem_chars y))%Z.
Proof.
  intros Hx Hy Hlen.
  exists (map (fun c => TInt (digit_value c)) (stem_chars x)),
         (map (fun c => TInt (digit_value c)) (stem_chars y)).
  split; [now apply decimal_key|]. split; [now apply decimal_key|].
  now apply decimal_keys_compare.
Qed.

Lemma equal_width_numbers_compare_by_value_witness :
  exists kx ky,
    numeric_key (entry "007.pdf" (File 2 (Pdf [7]))) = Ok kx
    /\ numeric_key (entry "010.pdf" (File 1 (Pdf [10]))) = Ok ky
    /\ list_lt kx ky = Ok true.
Proof.
  apply (equal_width_numbers_compare_by_value
           (entry "007.pdf" (File 2 (Pdf [7])))
           (entry "010.pdf" (File 1 (Pdf [10])))).
  - repeat constructor.
  - repeat constructor.
  - reflexivity.
Defined.


(** *** The listing and the order in which the directory is read *)

Lemma Permutation_filter_both {A : Type} (p : A -> bool) (l l' : list A) :
  Permutation l l' -> Permutation (filter p l) (filter p l').
Proof.
  induction 1 as [|x l l' H IH|x y l|l l' l'' H1 IH1 H2 IH2]; simpl.
  - constructor.
  - destruct (p x); [now constructor | exact IH].
  - destruct (p x), (p y); try apply Permutation_refl. apply perm_swap.
  - now apply perm_trans with (filter p l').
Qed.

(** Two ascending lists with the same entries, no two of them with the
    same path, are the same list. *)
Lemma ascending_unique (l1 l2 : list Entry) :
  StronglySorted path_le l1 -> StronglySorted path_le l2 ->
  Permutation l1 l2 -> NoDup (map path l1) -> l1 = l2.
Proof.
  intros H1. revert l2.
  induction H1 as [|a l1 Hs1 IH Hall1]; intros l2 H2 Hp Hnd.
  - now apply Permutation_nil in Hp.
  - destruct l2 as [|b l2];
      [now apply Permutation_sym, Permutation_nil in Hp|].
    inversion H2 as [|? ? Hs2 Hall2]; subst.
    inversion Hnd as [|? ? Hnotin Hnd']; subst.
    assert (Hab : a = b).
    { assert (Ha : In a (b :: l2))
        by (apply Permutation_in with (a :: l1); [exact Hp | now left]).
      assert (Hb : In b (a :: l1))
        by (apply Permutation_in with (b :: l2);
            [now apply Permutation_sym | now left]).
      destruct Ha as [Ha|Ha]; [now symmetry|].
      destruct Hb as [Hb|Hb]; [exact Hb|]. exfalso.
      rewrite Forall_forall in Hall1, Hall2.
      pose proof (Hall1 b Hb) as Hle1. pose proof (Hall2 a Ha) as Hle2.
      unfold path_le in Hle1, Hle2.
      apply Hnotin. rewrite (path_ltb_total (path a) (path b) Hle2 Hle1).
      now apply in_map. }
    subst b. f_equal. apply IH; [exact Hs2 | | exact Hnd'].
    now apply Permutation_cons_inv with a.
Qed.

Lemma glob_pdf_paths (dp : Path) (children : list (string * node)) :
  NoDup (map fst children) -> NoDup (map path (glob_pdf dp children)).
Proof.
  intros Hnd. unfold glob_pdf. rewrite map_map. cbn [path].
  rewrite <- (map_map fst (joinpath dp)).
  apply Finite.Injective_map_NoDup.
  - intros a b H. unfold joinpath in H. apply app_inv_head in H.
    now inversion H.
  - induction children as [|c children IH]; simpl; [constructor|].
    inversion Hnd as [|? ? Hnotin Hnd']; subst.
    destruct (fnmatch_pdf (fst c)); [|now apply IH].
    simpl. constructor; [|now apply IH].
    intros Hin. apply Hnotin. apply in_map_iff in Hin.
    destruct Hin as (x & Hx & Hin). apply filter_In in Hin.
    apply in_map_iff. exists x. now split.
Qed.

(** X9.  The listing does not depend on the order in which the
    operating system enumerates the directory: two enumerations of the
    same entries, the names being distinct, give the same result, list
    or exception. *)
Theorem listing_ignores_enumeration_order (w w' : World) (d : string)
    (mt mt' : Z) (children children' : list (string * node)) :
  resolve w d = Some (Dir mt children) ->
  resolve w' d = Some (Dir mt' children') ->
  Permutation children children' ->
  NoDup (map fst children) ->
  get_pdf_files w d = get_pdf_files w' d.
Proof.
  intros Hr Hr' Hp Hnd.
  destruct (get_pdf_files_dir w d mt children Hr)
    as (out & _ & Hp1 & Hs1 & ->).
  destruct (get_pdf_files_dir w' d mt' children' Hr')
    as (out' & _ & Hp2 & Hs2 & ->).
  assert (Hg : Permutation (glob_pdf (Path_of d) children)
                           (glob_pdf (Path_of d) children'))
    by (unfold glob_pdf; now apply Permutation_map, Permutation_filter_both).
  assert (E : out = out').
  { apply ascending_unique; [exact Hs1 | exact Hs2 | |].
    - eapply perm_trans; [apply Permutation_sym, Hp1|].
      eapply perm_trans; [exact Hg | exact Hp2].
    - eapply Permutation_NoDup; [apply Permutation_map, Hp1|].
      now apply glob_pdf_paths. }
  now rewrite E.
Qed.

Lemma listing_ignores_enumeration_order_witness :
  get_pdf_files (world_of numbered Completes) "docs"
  = get_pdf_files
      (world_of (Dir 7 [pdf "a1.pdf" 10 [1]; pdf "a2.pdf" 30 [2];
                        pdf "a10.pdf" 20 [10]]) disk_full) "docs".
Proof.
  apply (listing_ignores_enumeration_order
           (world_of numbered Completes)
           (world_of (Dir 7 [pdf "a1.pdf" 10 [1]; pdf "a2.pdf" 30 [2];
                             pdf "a10.pdf" 20 [10]]) disk_full)
           "docs" 0 7
           [pdf "a2.pdf" 30 [2]; pdf "a10.pdf" 20 [10]; pdf "a1.pdf" 10 [1]]
           [pdf "a1.pdf" 10 [1]; pdf "a2.pdf" 30 [2]; pdf "a10.pdf" 20 [10]]).
  - reflexivity.
  - reflexivity.
  - apply Permutation_sym.
    apply (Permutation_cons_app [pdf "a2.pdf" 30 [2]; pdf "a10.pdf" 20 [10]] []).
    rewrite app_nil_r. apply Permutation_refl.
  - repeat constructor; simpl; intuition discriminate.
Defined.


(** *** The merger on any list *)

Lemma pages_of_appended (l : list Entry) :
  flat_map pages_of l = flat_map pages_of (filter appended l).
Proof.
  induction l as [|x l IH]; [reflexivity|].
  cbn [flat_map filter]. unfold appended at 1, pages_of at 1.
  destruct (read_pdf x) as [ps|e] eqn:Hx.
  - cbn [flat_map]. unfold pages_of at 2. now rewrite Hx, IH.
  - exact IH.
Qed.

Lemma warnings_of_loop (l : list Entry) :
  filter is_warning (flat_map lines_for l) = flat_map warning_for l.
Proof.
  induction l as [|x l IH]; [reflexivity|].
  cbn [flat_map]. rewrite filter_app, IH. f_equal.
  unfold lines_for, warning_for. destruct (read_pdf x); reflexivity.
Qed.

Lemma warnings_and_appended (l : list Entry) :
  List.length (flat_map warning_for l) + List.length (filter appended l)
  = List.length l.
Proof.
  induction l as [|x l IH]; [reflexivity|].
  cbn [flat_map filter]. rewrite length_app.
  unfold warning_for at 1, appended at 1.
  destruct (read_pdf x); simpl; lia.
Qed.

(** [combine_pdfs] when the standard output takes every line and the
    write succeeds. *)
Lemma combine_pdfs_returns (w : World) (files : list Entry)
    (output_file : string) :
  write_goes w = Completes ->
  stdout_takes w
    (progress files output_file
     ++ [MsgSuccess (List.length files) output_file]) = true ->
  combine_pdfs w files output_file (start w)
  = ({| merged := flat_map pages_of files;
        printed := progress files output_file
                   ++ [MsgSuccess (List.length files) output_file];
        on_disk := Whole (flat_map pages_of files) |}, Ok tt).
Proof.
  intros Hw Hout. rewrite stdout_takes_app in Hout.
  apply andb_prop in Hout. destruct Hout as [Hp Hs].
  cbn [stdout_takes forallb] in Hs. rewrite andb_true_r in Hs.
  unfold progress in *. cbn [stdout_takes forallb] in Hp.
  change (forallb (can_print (stdout_encoding w)) ?l)
    with (stdout_takes w l) in Hp.
  cbn [can_print andb] in Hp. rewrite stdout_takes_app in Hp.
  apply andb_prop in Hp. destruct Hp as [Hloop Hwr].
  cbn [stdout_takes forallb] in Hwr. rewrite andb_true_r in Hwr.
  unfold combine_pdfs, start.
  unfold seq at 1. unfold print at 1. cbn [can_print merged printed on_disk].
  unfold seq at 1. rewrite (loop_returns w files _ Hloop).
  cbn [merged printed on_disk app].
  unfold seq at 1. unfold print at 1. rewrite Hwr.
  cbn [merged printed on_disk].
  unfold seq at 1. unfold write, PdfMerger_write. rewrite Hw.
  cbn [merged printed on_disk]. unfold print. rewrite Hs.
  cbn [merged printed on_disk app]. rewrite <- ?app_assoc. reflexivity.
Qed.

(** X10.  When the standard output takes the lines of the run and the
    final write succeeds, [combine_pdfs] returns for every list,
    however many of its files cannot be read: the document written
    holds the pages of the readable files in the order of the list and
    nothing else, every file is announced, and there is one warning for
    each unreadable file, in the order of the list. *)
Theorem merged_document_and_warnings (w : World) (files : list Entry)
    (output_file : string) :
  write_goes w = Completes ->
  stdout_takes w
    (progress files output_file
     ++ [MsgSuccess (List.length files) output_file]) = true ->
  exists s,
    combine_pdfs w files output_file (start w) = (s, Ok tt)
    /\ on_disk s = Whole (flat_map pages_of (filter appended files))
    /\ filter is_adding (printed s)
       = map (fun x => MsgAdding (name (path x))) files
    /\ filter is_warning (printed s) = flat_map warning_for files
    /\ List.length (filter is_warning (printed s))
       + List.length (filter appended files) = List.length files.
Proof.
  intros Hw Hout. rewrite (combine_pdfs_returns w files output_file Hw Hout).
  eexists. split; [reflexivity|]. cbn [on_disk printed]. unfold progress.
  assert (Hwarn : filter is_warning
                    ((MsgCombining (List.length files)
                      :: flat_map lines_for files ++ [MsgWriting output_file])
                     ++ [MsgSuccess (List.length files) output_file])
                  = flat_map warning_for files).
  { rewrite filter_app. cbn [filter is_warning].
    rewrite filter_app, warnings_of_loop. cbn [filter is_warning].
    now rewrite !app_nil_r. }
  split; [now rewrite <- pages_of_appended|]. split; [|split].
  - rewrite filter_app. cbn [filter is_adding].
    rewrite filter_app, Properties.adding_lines. cbn [filter is_adding].
    now rewrite !app_nil_r.
  - exact Hwarn.
  - rewrite Hwarn. apply warnings_and_appended.
Qed.

Lemma merged_document_and_warnings_witness :
  exists s,
    combine_pdfs (world_of all_damaged Completes)
      [entry "x.pdf" (File 1 (Damaged "EOF marker not found"));
       entry "a.pdf" (File 1 (Pdf [1; 2])); entry "y.pdf" BrokenLink]
      "out.pdf" (start (world_of all_damaged Completes))
    = (s, Ok tt)
    /\ on_disk s = Whole [1; 2]
    /\ filter is_adding (printed s)
       = [MsgAdding "x.pdf"; MsgAdding "a.pdf"; MsgAdding "y.pdf"]
    /\ filter is_warning (printed s)
       = flat_map warning_for
           [entry "x.pdf" (File 1 (Damaged "EOF marker not found"));
            entry "a.pdf" (File 1 (Pdf [1; 2])); entry "y.pdf" BrokenLink]
    /\ List.length (filter is_warning (printed s)) + 1 = 3.
Proof.
  apply (merged_document_and_warnings (world_of all_damaged Completes)
           [entry "x.pdf" (File 1 (Damaged "EOF marker not found"));
            entry "a.pdf" (File 1 (Pdf [1; 2])); entry "y.pdf" BrokenLink]
           "out.pdf").
  - reflexivity.
  - vm_compute; reflexivity.
Defined.

Lemma filter_all_length {A : Type} (p : A -> bool) (l : list A) :
  List.length (filter p l) = List.length l <-> Forall (fun x => p x = true) l.
Proof.
  induction l as [|x l IH]; simpl; [split; [constructor | reflexivity]|].
  pose proof (filter_length_le p l) as Hle.
  destruct (p x) eqn:Hx; simpl; split; intros H.
  - constructor; [exact Hx | apply IH; lia].
  - inversion H; subst. f_equal. now apply IH.
  - lia.
  - inversion H; congruence.
Qed.

Lemma no_success_in_progress (files : list Entry) (o o' : string) (m : nat) :
  ~ In (MsgSuccess m o) (progress files o').
Proof.
  unfold progress. intros [H|H]; [discriminate|].
  apply in_app_or in H. destruct H as [H|[H|[]]]; [|discriminate].
  apply in_flat_map in H. destruct H as (x & _ & H).
  unfold lines_for in H. destruct H as [H|H]; [discriminate|].
  destruct (read_pdf x); [contradiction|].
  destruct H as [H|[]]; discriminate.
Qed.

Lemma success_line (files : list Entry) (o : string) (m : nat) :
  In (MsgSuccess m o)
     (progress files o ++ [MsgSuccess (List.length files) o])
  <-> m = List.length files.
Proof.
  split.
  - intros H. apply in_app_or in H. destruct H as [H|[H|[]]].
    + now apply no_success_in_progress in H.
    + now inversion H.
  - intros ->. apply in_or_app. right. now left.
Qed.

(** A run of [main] that ends with status 0, in full. *)
Lemma main_status_zero (w : World) (args : Args) (files : list Entry) :
  ordered_files w args = Ok files ->
  exit_status (main w args) = 0%Z ->
  main w args
  = {| stdout := progress files (output args)
                 ++ [MsgSuccess (List.length files) (output args)];
       stderr := []; exit_status := 0;
       output_after := Whole (flat_map pages_of files) |}.
Proof.
  intros Ho. destruct (stdout_takes w (progress files (output args))) eqn:Hp.
  - rewrite (main_spec w args files Ho Hp).
    destruct (write_goes w) as [|e|k e]; try discriminate.
    destruct (can_print (stdout_encoding w)
                (MsgSuccess (List.length files) (output args)));
      [reflexivity | discriminate].
  - destruct (main_refused w args files Ho Hp) as (m & out & _ & _ & E).
    rewrite E. discriminate.
Qed.

(** X11.  After a run that ends with status 0, the number in the
    success line is the number of files that were combined exactly when
    no file was skipped. *)
Theorem success_count_is_right_iff_nothing_skipped (w : World) (args : Args)
    (files : list Entry) :
  ordered_files w args = Ok files ->
  exit_status (main w args) = 0%Z ->
  (In (MsgSuccess (List.length (filter appended files)) (output args))
      (stdout (main w args))
   <-> Forall (fun x => appended x = true) files).
Proof.
  intros Ho Hz. rewrite (main_status_zero w args files Ho Hz).
  cbn [stdout]. rewrite success_line. apply filter_all_length.
Qed.

Lemma success_count_is_right_iff_nothing_skipped_witness :
  In (MsgSuccess 3 "out.pdf")
     (stdout (main (world_of numbered Completes) (args_of ByName))).
Proof.
  apply (proj2 (success_count_is_right_iff_nothing_skipped
                  (world_of numbered Completes) (args_of ByName)
                  [entry "a1.pdf" (File 10 (Pdf [1]));
                   entry "a10.pdf" (File 20 (Pdf [10]));
                   entry "a2.pdf" (File 30 (Pdf [2]))]
                  ltac:(vm_compute; reflexivity)
                  ltac:(vm_compute; reflexivity))).
  repeat constructor.
Defined.

(** X12.  A run in which not one file can be read still succeeds when
    the standard output takes its lines and the write succeeds: it ends
    with status 0, warns once for each file, writes a document without
    pages over whatever the output path held, and reports all the files
    as combined. *)
Theorem all_unreadable_still_succeeds (w : World) (args : Args)
    (files : list Entry) :
  ordered_files w args = Ok files ->
  Forall (fun x => appended x = false) files ->
  write_goes w = Completes ->
  stdout_takes w
    (progress files (output args)
     ++ [MsgSuccess (List.length files) (output args)]) = true ->
  exit_status (main w args) = 0%Z
  /\ stderr (main w args) = []
  /\ output_after (main w args) = Whole []
  /\ List.length (filter is_warning (stdout (main w args)))
     = List.length files
  /\ In (MsgSuccess (List.length files) (output args)) (stdout (main w args)).
Proof.
  intros Ho Hbad Hw Hout.
  rewrite stdout_takes_app in Hout. apply andb_prop in Hout.
  destruct Hout as [Hp Hs]. cbn [stdout_takes forallb] in Hs.
  rewrite andb_true_r in Hs.
  rewrite (main_spec w args files Ho Hp), Hw, Hs.
  cbn [exit_status stderr output_after stdout].
  assert (Hnone : filter appended files = []).
  { clear -Hbad. induction Hbad as [|x l Hx Hl IH]; [reflexivity|].
    simpl. now rewrite Hx. }
  split; [reflexivity|]. split; [reflexivity|]. split; [|split].
  - rewrite pages_of_appended, Hnone. reflexivity.
  - unfold progress. rewrite filter_app. cbn [filter is_warning].
    rewrite filter_app, warnings_of_loop. cbn [filter is_warning].
    rewrite !app_nil_r.
    pose proof (warnings_and_appended files) as H. rewrite Hnone in H.
    simpl in H. lia.
  - now apply success_line.
Qed.

Lemma all_unreadable_still_succeeds_witness :
  exit_status (main (world_of all_damaged Completes) (args_of ByName)) = 0%Z
  /\ stderr (main (world_of all_damaged Completes) (args_of ByName)) = []
  /\ output_after (main (world_of all_damaged Completes) (args_of ByName))
     = Whole []
  /\ List.length (filter is_warning
       (stdout (main (world_of all_damaged Completes) (args_of ByName)))) = 2
  /\ In (MsgSuccess 2 "out.pdf")
        (stdout (main (world_of all_damaged Completes) (args_of ByName))).
Proof.
  apply (all_unreadable_still_succeeds
           (world_of all_damaged Completes) (args_of ByName)
           [entry "x.pdf" (File 1 (Damaged "EOF marker not found"));
            entry "y.pdf" BrokenLink]).
  - vm_compute; reflexivity.
  - repeat constructor.
  - reflexivity.
  - vm_compute; reflexivity.
Defined.

(** *** The name and the stem of a listed file *)

Lemma substring_all (s : string) : substring 0 (String.length s) s = s.
Proof. induction s as [|c s IH]; simpl; [reflexivity | now rewrite IH]. Qed.

Lemma substring_split (s : string) (k : nat) :
  k <= String.length s ->
  s = (substring 0 k s ++ substring k (String.length s - k) s)%string.
Proof.
  revert k; induction s as [|c s IH]; intros k Hk.
  - simpl in Hk. assert (k = 0) by lia. subst. reflexivity.
  - destruct k as [|k].
    + cbn [String.length Nat.sub]. cbn [substring]. rewrite substring_all.
      reflexivity.
    + cbn [String.length] in *. cbn [substring Nat.sub]. simpl.
      f_equal. apply IH. lia.
Qed.

Lemma substring_prefix (a b : string) :
  substring 0 (String.length a) (a ++ b) = a.
Proof.
  induction a as [|c a IH]; simpl.
  - destruct b; reflexivity.
  - now rewrite IH.
Qed.

Lemma endswith_suffix (s suffix : string) :
  endswith s suffix = true -> exists base, s = (base ++ suffix)%string.
Proof.
  unfold endswith. intros H. apply andb_prop in H. destruct H as [Hlen Heq].
  apply Nat.leb_le in Hlen. apply String.eqb_eq in Heq.
  exists (substring 0 (String.length s - String.length suffix) s).
  pose proof (substring_split s (String.length s - String.length suffix)
                ltac:(lia)) as E.
  replace (String.length s - (String.length s - String.length suffix))
    with (String.length suffix) in E by lia.
  rewrite Heq in E. exact E.
Qed.

Lemma rfind_dot_pdf (base : string) :
  rfind_dot (base ++ ".pdf") = Some (String.length base).
Proof.
  induction base as [|c base IH]; [reflexivity|].
  cbn [String.append rfind_dot String.length]. now rewrite IH.
Qed.

Lemma length_append (a b : string) :
  String.length (a ++ b) = String.length a + String.length b.
Proof. induction a as [|c a IH]; simpl; [reflexivity | now rewrite IH]. Qed.

Lemma stem_of_pdf_name (p : Path) (base : string) :
  name p = (base ++ ".pdf")%string ->
  stem p = if String.eqb base "" then ".pdf" else base.
Proof.
  intros Hn. unfold stem. rewrite Hn, rfind_dot_pdf, length_append.
  destruct base as [|c base]; [reflexivity|].
  assert (H1 : Nat.ltb 0 (String.length (String c base)) = true)
    by reflexivity.
  assert (H2 : Nat.ltb (String.length (String c base))
                 (String.length (String c base) + String.length ".pdf" - 1)
               = true)
    by (apply Nat.ltb_lt; simpl; lia).
  rewrite H1, H2. cbn [andb String.eqb].
  apply (substring_prefix (String c base) ".pdf").
Qed.

Lemma name_joinpath (p : Path) (n : string) :
  is_root n = false -> name (joinpath p n) = n.
Proof.
  intros Hn. unfold joinpath, name. destruct p as [|r rest].
  - cbn [app last]. now rewrite Hn.
  - rewrite <- app_comm_cons. destruct (is_root r).
    + apply last_last.
    + rewrite app_comm_cons. apply last_last.
Qed.

Lemma pdf_name_is_no_root (n : string) :
  fnmatch_pdf n = true -> is_root n = false.
Proof.
  unfold fnmatch_pdf, endswith, is_root. intros H.
  destruct (String.eqb_spec n "/") as [->|_]; [discriminate|].
  destruct (String.eqb_spec n "//") as [->|_]; [discriminate|].
  reflexivity.
Qed.

(** X13.  Every listed file has a name of the form [base.pdf], the name
    being the directory entry's own, and the numeric key is computed
    from [base], the name without its [.pdf]; only a file called
    [.pdf] and nothing else keeps its whole name as stem. *)
Theorem listed_stem_is_the_name_without_pdf (w : World) (d : string)
    (files : list Entry) (x : Entry) :
  get_pdf_files w d = Ok files ->
  In x files ->
  exists base,
    name (path x) = (base ++ ".pdf")%string
    /\ path x = Path_of d ++ [(base ++ ".pdf")%string]
    /\ stem (path x) = if String.eqb base "" then ".pdf" else base.
Proof.
  intros Hg Hx.
  destruct (resolve w d) as [[mt b|mt children|]|] eqn:Hr;
    try (unfold get_pdf_files in Hg; rewrite Hr in Hg; discriminate).
  destruct (get_pdf_files_dir w d mt children Hr) as (out & _ & Hp & _ & Hg').
  rewrite Hg in Hg'. destruct out as [|y out]; [discriminate|].
  inversion Hg'; subst files.
  apply (Permutation_in _ (Permutation_sym Hp)) in Hx.
  unfold glob_pdf in Hx. apply in_map_iff in Hx.
  destruct Hx as ([n nd] & <- & Hin). apply filter_In in Hin.
  destruct Hin as [_ Hm]. cbn [fst snd path] in *.
  destruct (endswith_suffix n ".pdf" Hm) as [base ->].
  assert (Hname : name (joinpath (Path_of d) (base ++ ".pdf"))
                  = (base ++ ".pdf")%string)
    by (apply name_joinpath, pdf_name_is_no_root, Hm).
  exists base. split; [exact Hname|]. split; [reflexivity|].
  now apply stem_of_pdf_name.
Qed.

Lemma listed_stem_is_the_name_without_pdf_witness :
  exists base,
    name ["docs"; "a.b.pdf"] = (base ++ ".pdf")%string
    /\ ["docs"; "a.b.pdf"] = Path_of "docs" ++ [(base ++ ".pdf")%string]
    /\ stem ["docs"; "a.b.pdf"] = if String.eqb base "" then ".pdf" else base.
Proof.
  apply (listed_stem_is_the_name_without_pdf
           (world_of (Dir 0 [pdf "a.b.pdf" 1 [1]; pdf ".pdf" 2 [2]]) Completes)
           "docs"
           [entry ".pdf" (File 2 (Pdf [2])); entry "a.b.pdf" (File 1 (Pdf [1]))]
           (entry "a.b.pdf" (File 1 (Pdf [1])))).
  - vm_compute; reflexivity.
  - right; left; reflexivity.
Defined.

(** X14.  In the name mode a run that ends with status 0 has
    announced and merged the files in ascending order of their paths:
    its "Adding" lines are in that order and the document holds the
    pages in that order. *)
Theorem name_mode_merges_in_path_order (w : World) (args : Args) (mt : Z)
    (children : list (string * node)) :
  resolve w (directory args) = Some (Dir mt children) ->
  sort args = ByName ->
  exit_status (main w args) = 0%Z ->
  exists files,
    StronglySorted path_le files
    /\ Permutation (glob_pdf (Path_of (directory args)) children) files
    /\ filter is_adding (stdout (main w args))
       = map (fun x => MsgAdding (name (path x))) files
    /\ output_after (main w args) = Whole (flat_map pages_of files).
Proof.
  intros Hr Hs Hz.
  destruct (get_pdf_files_dir w _ mt children Hr) as (out & _ & Hp & Hso & Hg).
  destruct out as [|x out].
  { exfalso. unfold main, ordered_files in Hz. rewrite Hg in Hz.
    discriminate Hz. }
  assert (Ho : ordered_files w args = Ok (x :: out)).
  { unfold ordered_files. rewrite Hg, Hs. reflexivity. }
  exists (x :: out). split; [exact Hso|]. split; [exact Hp|].
  rewrite (main_status_zero w args _ Ho Hz).
  cbn [stdout output_after]. split; [|reflexivity].
  unfold progress. rewrite filter_app. cbn [filter is_adding].
  rewrite filter_app, Properties.adding_lines. cbn [filter is_adding].
  now rewrite !app_nil_r.
Qed.

Lemma name_mode_merges_in_path_order_witness :
  exists files,
    StronglySorted path_le files
    /\ Permutation
         (glob_pdf ["docs"]
            [pdf "a2.pdf" 30 [2]; pdf "a10.pdf" 20 [10]; pdf "a1.pdf" 10 [1]])
         files
    /\ filter is_adding
         (stdout (main (world_of numbered Completes) (args_of ByName)))
       = map (fun x => MsgAdding (name (path x))) files
    /\ output_after (main (world_of numbered Completes) (args_of ByName))
       = Whole (flat_map pages_of files).
Proof.
  apply (name_mode_merges_in_path_order
           (world_of numbered Completes) (args_of ByName) 0
           [pdf "a2.pdf" 30 [2]; pdf "a10.pdf" 20 [10]; pdf "a1.pdf" 10 [1]]).
  - reflexivity.
  - reflexivity.
  - vm_compute; reflexivity.
Defined.

(** *** The success line and the exit status *)

(** X15.  [main] prints a success line exactly in the runs that end
    with status 0: never after a failed listing or sort, a line the
    standard output could not take, or a failed write, and never
    without ending with status 0. *)
Theorem success_line_iff_status_zero (w : World) (args : Args) :
  (exists n o, In (MsgSuccess n o) (stdout (main w args)))
  <-> exit_status (main w args) = 0%Z.
Proof.
  destruct (ordered_files w args) as [files|e] eqn:Ho.
  - split.
    + intros (n & o & H).
      destruct (stdout_takes w (progress files (output args))) eqn:Hp.
      * rewrite (main_spec w args files Ho Hp) in *.
        destruct (write_goes w) as [|e|k e]; cbn [stdout] in H;
          try (now apply no_success_in_progress in H).
        destruct (can_print (stdout_encoding w)
                    (MsgSuccess (List.length files) (output args)));
          [reflexivity|].
        cbn [stdout] in H. now apply no_success_in_progress in H.
      * exfalso. unfold main in H. rewrite Ho in H.
        unfold progress in Hp. cbn [stdout_takes forallb can_print andb] in Hp.
        change (forallb (can_print (stdout_encoding w)) ?l)
          with (stdout_takes w l) in Hp.
        rewrite stdout_takes_app in Hp.
        unfold combine_pdfs, start in H.
        unfold seq at 1 in H. unfold print at 1 in H.
        cbn [can_print merged printed on_disk app] in H.
        unfold seq at 1 in H.
        destruct (stdout_takes w (flat_map lines_for files)) eqn:Hloop.
        -- cbn [andb stdout_takes forallb] in Hp. rewrite andb_true_r in Hp.
           rewrite (loop_returns w files _ Hloop) in H.
           cbn [merged printed on_disk app] in H.
           unfold seq at 1 in H. unfold print at 1 in H. rewrite Hp in H.
           cbn [stdout printed] in H.
           apply (no_success_in_progress files o (output args) n).
           unfold progress. destruct H as [H|H]; [now left | right].
           apply in_or_app. now left.
        -- destruct (loop_printed_refused w files
                       {| merged := [];
                          printed := [MsgCombining (List.length files)];
                          on_disk := output_before w |} Hloop)
             as (s' & e' & E & Hsub).
           rewrite E in H. cbn [stdout] in H.
           apply Hsub in H. cbn [printed] in H.
           apply (no_success_in_progress files o (output args) n).
           unfold progress. destruct H as [[H|[]]|H]; [now left | right].
           apply in_or_app. now left.
    + intros Hz. rewrite (main_status_zero w args files Ho Hz).
      exists (List.length files), (output args).
      apply in_or_app. right. now left.
  - rewrite (main_raises w args e Ho). cbn [stdout exit_status]. split.
    + intros (n & o & []).
    + discriminate.
Qed.

(** X16.  When the standard output cannot encode the success line (its
    check mark, or the output name) while everything before succeeded,
    the document is written whole, no success line is printed, and the
    run ends with status 1 and the [UnicodeEncodeError] on the error
    stream. *)
Theorem unencodable_success_line_fails_after_writing (w : World)
    (args : Args) (files : list Entry) :
  ordered_files w args = Ok files ->
  stdout_takes w (progress files (output args)) = true ->
  write_goes w = Completes ->
  can_print (stdout_encoding w)
    (MsgSuccess (List.length files) (output args)) = false ->
  exit_status (main w args) = 1%Z
  /\ output_after (main w args) = Whole (flat_map pages_of files)
  /\ stdout (main w args) = progress files (output args)
  /\ stderr (main w args)
     = [MsgError (UnicodeEncodeError
                    (refusal (stdout_encoding w)
                       (MsgSuccess (List.length files) (output args))))].
Proof.
  intros Ho Hp Hw Hs. rewrite (main_spec w args files Ho Hp), Hw, Hs.
  repeat split.
Qed.

Lemma unencodable_success_line_fails_after_writing_witness :
  exit_status (main (world_with latin_1 numbered Completes) (args_of ByName))
  = 1%Z
  /\ output_after (main (world_with latin_1 numbered Completes)
                        (args_of ByName)) = Whole [1; 10; 2]
  /\ stdout (main (world_with latin_1 numbered Completes) (args_of ByName))
     = [MsgCombining 3; MsgAdding "a1.pdf"; MsgAdding "a10.pdf";
        MsgAdding "a2.pdf"; MsgWriting "out.pdf"]
  /\ stderr (main (world_with latin_1 numbered Completes) (args_of ByName))
     = [MsgError (UnicodeEncodeError
          "'latin-1' codec can't encode character '\u2713' in position 0: ordinal not in range(256)")].
Proof.
  apply (unencodable_success_line_fails_after_writing
           (world_with latin_1 numbered Completes) (args_of ByName)
           [entry "a1.pdf" (File 10 (Pdf [1]));
            entry "a10.pdf" (File 20 (Pdf [10]));
            entry "a2.pdf" (File 30 (Pdf [2]))]).
  - vm_compute; reflexivity.
  - vm_compute; reflexivity.
  - reflexivity.
  - reflexivity.
Defined.

(** X17.  When the standard output cannot encode one of the lines
    before the write (the name of a file, the text of a warning, the
    output name), the run stops at that line: it ends with status 1 and
    the [UnicodeEncodeError] of that line on the error stream, and the
    output path is as it was. *)
Theorem unencodable_line_stops_before_the_write (w : World) (args : Args)
    (files : list Entry) :
  ordered_files w args = Ok files ->
  stdout_takes w (progress files (output args)) = false ->
  exit_status (main w args) = 1%Z
  /\ output_after (main w args) = output_before w
  /\ exists m,
       In m (progress files (output args))
       /\ can_print (stdout_encoding w) m = false
       /\ stderr (main w args)
          = [MsgError (UnicodeEncodeError (refusal (stdout_encoding w) m))].
Proof.
  intros Ho Hp.
  destruct (main_refused w args files Ho Hp) as (m & out & Hin & Hm & E).
  rewrite E. cbn [exit_status output_after stderr].
  split; [reflexivity|]. split; [reflexivity|]. now exists m.
Qed.

Lemma unencodable_line_stops_before_the_write_witness :
  exit_status (main (world_with ascii_only accented Completes)
                 (args_of ByName)) = 1%Z
  /\ output_after (main (world_with ascii_only accented Completes)
                        (args_of ByName)) = Absent
  /\ exists m,
       In m (progress
               [entry "a.pdf" (File 1 (Pdf [1]));
                entry (String (ascii_of_nat 233) ".pdf") (File 2 (Pdf [2]))]
               "out.pdf")
       /\ can_print ascii_only m = false
       /\ stderr (main (world_with ascii_only accented Completes)
                     (args_of ByName))
          = [MsgError (UnicodeEncodeError (refusal ascii_only m))].
Proof.
  apply (unencodable_line_stops_before_the_write
           (world_with ascii_only accented Completes) (args_of ByName)
           [entry "a.pdf" (File 1 (Pdf [1]));
            entry (String (ascii_of_nat 233) ".pdf") (File 2 (Pdf [2]))]).
  - vm_compute; reflexivity.
  - vm_compute; reflexivity.
Defined.

End Further.
